(** * The sculpture-guide relay: entity store and session coordinator

    A shallow embedding of [json-data-service.ts] (class [JsonDataService])
    and of [session.ts] (class [RTSession]), and the properties of the
    specification established on it.

    Conventions of the embedding.
    - A JavaScript string is a [string]; [toLowerCase] folds the ASCII
      letters and leaves every other character alone.
    - An optional property ([year?: string]) is an [option string]; the
      test [if (x)] on it is [truthy]: present and not the empty string.
    - Reading and parsing the file is summarised by a [LoadOutcome]: the
      read fails, the parse fails, or the file holds a dataset of the
      declared interface [SculptureData] or the JSON value [null]. A file
      that holds any other JSON value is not covered.
    - [await] is sequencing; the only place where two tasks really run
      side by side ([Promise.all] in [handleAudioContent]) is modelled by
      the interleavings of their frames.
    - The logger is not modelled. *)

From Stdlib Require Import String Ascii List Bool Arith Lia.
From Stdlib Require Import Strings.Byte.
From Stdlib Require Import DecimalString DecimalNat.
Import ListNotations.

Set Implicit Arguments.

(** ** JavaScript string and value primitives *)

Module Js.

Local Open Scope string_scope.

Definition newline : string := String (ascii_of_nat 10) EmptyString.

(** [c.toLowerCase()] on one ASCII character. *)
Definition lower_char (c : ascii) : ascii :=
  let n := nat_of_ascii c in
  if ((65 <=? n)%nat && (n <=? 90)%nat)%bool then ascii_of_nat (n + 32) else c.

Fixpoint toLowerCase (s : string) : string :=
  match s with
  | EmptyString => EmptyString
  | String c s' => String (lower_char c) (toLowerCase s')
  end.

(** [s.includes(pat)]: [pat] occurs in [s] at some position. *)
Fixpoint includes (s pat : string) : bool :=
  prefix pat s ||
  match s with
  | EmptyString => false
  | String _ s' => includes s' pat
  end.

(** The test [if (s)] on a string. *)
Definition truthy (s : string) : bool := negb (s =? "").

(** The test [if (x)] on an optional string property. *)
Definition truthy_opt (x : option string) : bool :=
  match x with
  | Some s => truthy s
  | None => false
  end.

(** [x === s] where [x] may be [undefined] and [s] is a string. *)
Definition opt_is (x : option string) (s : string) : bool :=
  match x with
  | Some r => r =? s
  | None => false
  end.

(** [results.length > 0]. *)
Definition nonEmpty {A} (l : list A) : bool := (0 <? length l)%nat.

(** The decimal rendering of a number inside a template literal. *)
Definition numberToString (n : nat) : string :=
  NilEmpty.string_of_uint (Nat.to_uint n).

End Js.

(** ** The data model (interfaces of [json-data-service.ts]) *)

Module Artist.
Record t := mk {
  id : string;
  name : string;
  birthYear : option string;
  deathYear : option string;
  nationality : option string;
  bio : option string
}.
End Artist.

Module Material.
Record t := mk {
  id : string;
  name : string;
  properties : option string;
  uses : option string
}.
End Material.

Module Period.
Record t := mk {
  id : string;
  name : string;
  startYear : option string;
  endYear : option string;
  characteristics : option string
}.
End Period.

Module Location.
Record t := mk {
  id : string;
  name : string;
  city : option string;
  country : option string
}.
End Location.

Module Sculpture.
Record t := mk {
  id : string;
  name : string;
  artist : string;
  year : option string;
  material : option string;
  period : option string;
  location : option string;
  description : option string;
  imageUrl : option string;
  visualDescription : option string
}.
End Sculpture.

Record SculptureData := mkData {
  sculptures : list Sculpture.t;
  artists : list Artist.t;
  materials : list Material.t;
  periods : list Period.t;
  locations : list Location.t
}.

(** What [fs.readFile] followed by [JSON.parse] makes of the file behind
    [dataPath] at the moment it is read: [readFile] throws, [JSON.parse]
    throws, [JSON.parse] returns a dataset, or [JSON.parse] returns
    [null]. *)
Inductive LoadOutcome :=
| ReadError
| ParseError
| Parsed (d : SculptureData)
| ParsedNull.

(** The criteria object of [searchSculptures]. *)
Module Params.
Record t := mk {
  name : option string;
  artist : option string;
  material : option string;
  period : option string;
  location : option string
}.
Definition none : t := mk None None None None None.
End Params.

(** ** [class JsonDataService] *)

Module JsonDataService.

Import Js.

(** The object: the field [data], the file that [dataPath] denotes, and
    the number of times the file has been read so far. *)
Record t := mk {
  data : option SculptureData;
  file : LoadOutcome;
  reads : nat
}.

Definition create (f : LoadOutcome) : t := mk None f 0.

(** The environment replaces the file; the object is untouched. *)
Definition withFile (f : LoadOutcome) (s : t) : t :=
  mk (data s) f (reads s).

(** [this.data = JSON.parse(fileContent); return true;], and
    [return false] from the [catch]. *)
Definition loadData (s : t) : t * bool :=
  match file s with
  | Parsed d => (mk (Some d) (file s) (S (reads s)), true)
  | ParsedNull => (mk None (file s) (S (reads s)), true)
  | ReadError | ParseError => (mk (data s) (file s) (S (reads s)), false)
  end.

(** [if (!this.data) await this.loadData();] *)
Definition ensureData (s : t) : t :=
  match data s with
  | Some _ => s
  | None => fst (loadData s)
  end.

Definition nameHas (entityName pattern : string) : bool :=
  includes (toLowerCase entityName) pattern.

Definition findSculptureByName (name : string) (s : t)
  : t * list Sculpture.t :=
  let s := ensureData s in
  match data s with
  | None => (s, [])
  | Some d =>
      let namePattern := toLowerCase name in
      (s, filter (fun sculpture =>
                    nameHas (Sculpture.name sculpture) namePattern)
                 (sculptures d))
  end.

Definition getSculptureById (id : string) (s : t)
  : t * option Sculpture.t :=
  let s := ensureData s in
  match data s with
  | None => (s, None)
  | Some d =>
      (s, find (fun sculpture => String.eqb (Sculpture.id sculpture) id)
               (sculptures d))
  end.

Definition getSculpturesByArtist (artistName : string) (s : t)
  : t * list (Sculpture.t * Artist.t) :=
  let s := ensureData s in
  match data s with
  | None => (s, [])
  | Some d =>
      let artistNamePattern := toLowerCase artistName in
      let matchingArtists :=
        filter (fun artist => nameHas (Artist.name artist) artistNamePattern)
               (artists d) in
      (s, flat_map (fun artist =>
            let artistSculptures :=
              filter (fun sculpture =>
                        String.eqb (Sculpture.artist sculpture) (Artist.id artist)
                        || String.eqb (Sculpture.artist sculpture) (Artist.name artist))
                     (sculptures d) in
            map (fun sculpture => (sculpture, artist)) artistSculptures)
          matchingArtists)
  end.

Definition getSculpturesByMaterial (materialName : string) (s : t)
  : t * list (Sculpture.t * Material.t) :=
  let s := ensureData s in
  match data s with
  | None => (s, [])
  | Some d =>
      let materialNamePattern := toLowerCase materialName in
      let matchingMaterials :=
        filter (fun material =>
                  nameHas (Material.name material) materialNamePattern)
               (materials d) in
      (s, flat_map (fun material =>
            let materialSculptures :=
              filter (fun sculpture =>
                        opt_is (Sculpture.material sculpture) (Material.id material)
                        || opt_is (Sculpture.material sculpture) (Material.name material))
                     (sculptures d) in
            map (fun sculpture => (sculpture, material)) materialSculptures)
          matchingMaterials)
  end.

Definition getSculpturesByPeriod (periodName : string) (s : t)
  : t * list (Sculpture.t * Period.t) :=
  let s := ensureData s in
  match data s with
  | None => (s, [])
  | Some d =>
      let periodNamePattern := toLowerCase periodName in
      let matchingPeriods :=
        filter (fun period => nameHas (Period.name period) periodNamePattern)
               (periods d) in
      (s, flat_map (fun period =>
            let periodSculptures :=
              filter (fun sculpture =>
                        opt_is (Sculpture.period sculpture) (Period.id period)
                        || opt_is (Sculpture.period sculpture) (Period.name period))
                     (sculptures d) in
            map (fun sculpture => (sculpture, period)) periodSculptures)
          matchingPeriods)
  end.

(** The four [find] calls of [searchSculptures]: the first entity of the
    collection, in store order, whose id or whose name is the
    sculpture's reference. *)
Definition refMatch {E} (eid ename : E -> string) (ref : option string)
           (collection : list E) : option E :=
  find (fun e => opt_is ref (eid e) || opt_is ref (ename e)) collection.

Definition artistMatch (d : SculptureData) (sculpture : Sculpture.t) :=
  refMatch Artist.id Artist.name (Some (Sculpture.artist sculpture)) (artists d).

Definition materialMatch (d : SculptureData) (sculpture : Sculpture.t) :=
  refMatch Material.id Material.name (Sculpture.material sculpture) (materials d).

Definition periodMatch (d : SculptureData) (sculpture : Sculpture.t) :=
  refMatch Period.id Period.name (Sculpture.period sculpture) (periods d).

Definition locationMatch (d : SculptureData) (sculpture : Sculpture.t) :=
  refMatch Location.id Location.name (Sculpture.location sculpture) (locations d).

(** One [if (params.x) { ... return false }] block on a reference:
    [true] when the block lets the sculpture through. *)
Definition refCheck {E} (ename : E -> string) (criterion : option string)
           (found : option E) : bool :=
  match criterion with
  | Some v =>
      if truthy v then
        match found with
        | None => false
        | Some e => nameHas (ename e) (toLowerCase v)
        end
      else true
  | None => true
  end.

Definition nameCheck (criterion : option string) (sculpture : Sculpture.t)
  : bool :=
  match criterion with
  | Some v =>
      if truthy v then nameHas (Sculpture.name sculpture) (toLowerCase v)
      else true
  | None => true
  end.

(** The callback given to [filter] in [searchSculptures]. *)
Definition searchFilter (params : Params.t) (d : SculptureData)
           (sculpture : Sculpture.t) : bool :=
  if negb (nameCheck (Params.name params) sculpture) then false
  else if negb (refCheck Artist.name (Params.artist params)
                         (artistMatch d sculpture)) then false
  else if negb (refCheck Material.name (Params.material params)
                         (materialMatch d sculpture)) then false
  else if negb (refCheck Period.name (Params.period params)
                         (periodMatch d sculpture)) then false
  else if negb (refCheck Location.name (Params.location params)
                         (locationMatch d sculpture)) then false
  else true.

Definition searchSculptures (params : Params.t) (s : t)
  : t * list Sculpture.t :=
  let s := ensureData s in
  match data s with
  | None => (s, [])
  | Some d => (s, filter (searchFilter params d) (sculptures d))
  end.

Definition getArtistById (id : string) (s : t) : t * option Artist.t :=
  let s := ensureData s in
  (s, match data s with
      | None => None
      | Some d => find (fun artist => String.eqb (Artist.id artist) id) (artists d)
      end).

Definition getMaterialById (id : string) (s : t) : t * option Material.t :=
  let s := ensureData s in
  (s, match data s with
      | None => None
      | Some d =>
          find (fun material => String.eqb (Material.id material) id) (materials d)
      end).

Definition getPeriodById (id : string) (s : t) : t * option Period.t :=
  let s := ensureData s in
  (s, match data s with
      | None => None
      | Some d => find (fun period => String.eqb (Period.id period) id) (periods d)
      end).

Definition getLocationById (id : string) (s : t) : t * option Location.t :=
  let s := ensureData s in
  (s, match data s with
      | None => None
      | Some d =>
          find (fun location => String.eqb (Location.id location) id) (locations d)
      end).

(** What a lookup reads once its load-if-unset line has run. *)
Definition snapshot (s : t) : option SculptureData := data (ensureData s).

End JsonDataService.

(** ** [class RTSession] *)

Module RTSession.

Import Js.
Local Open Scope string_scope.

Local Infix "+++" := String.append (at level 50, left associativity).

(** *** Messages, frames and calls *)

Inductive WSMessage :=
| TextDelta (id delta : string)
| Transcription (id text : string)
| UserMessage (id text : string)
| SpeechStarted
| Connected (greeting : string)
| TextDone (id : string).

(** What [ws.send] puts on the wire: the JSON text of a message, or the
    bytes themselves with [{ binary: true }]. *)
Inductive Frame :=
| TextFrame (message : WSMessage)
| BinaryFrame (bytes : list byte).

(** What the client sends: binary, or text that [JSON.parse] turns into
    a message ([None] when it throws). *)
Inductive Inbound :=
| InBinary (bytes : list byte)
| InText (parsed : option WSMessage).

Inductive Role := System | User.

(** The calls made on the [RTClient]. *)
Inductive RemoteCall :=
| SendItem (role : Role) (text : string)
| GenerateResponse
| SendAudio (bytes : list byte).

Inductive Error :=
| RemoteError
| LookupError
| TypeError
| SyntaxError
| StreamError.

Inductive Outcome (A : Type) :=
| Returned (a : A)
| Thrown (e : Error).
Arguments Thrown {A} e.

(** An async iterable as consumed by [for await]: chunks, then the end
    of the stream or a rejection. *)
Inductive Stream (A : Type) :=
| Done
| Failed
| Chunk (a : A) (rest : Stream A).
Arguments Done {A}.
Arguments Failed {A}.

Fixpoint streamOf {A} (l : list A) : Stream A :=
  match l with
  | [] => Done
  | a :: l' => Chunk a (streamOf l')
  end.

(** A typed array: a window on a buffer. [isArrayBuffer] is the test
    [buffer instanceof ArrayBuffer]. *)
Record ArrayBufferLike := mkBuffer {
  isArrayBuffer : bool;
  contents : list byte
}.

Record TypedArray := mkArray {
  buffer : ArrayBufferLike;
  byteOffset : nat;
  byteLength : nat
}.

(** The bytes the typed array stands for. *)
Definition arrayBytes (chunk : TypedArray) : list byte :=
  firstn (byteLength chunk) (skipn (byteOffset chunk) (contents (buffer chunk))).

Record RTTextContent := mkText {
  textItemId : string;
  textContentIndex : nat;
  textChunks : Stream string
}.

Record RTAudioContent := mkAudio {
  itemId : string;
  contentIndex : nat;
  audioChunks : Stream TypedArray;
  transcriptChunks : Stream string
}.

(** *** The data service as the session uses it

    The four lookups of enrichment; each may change the service (the
    lazy load) and may throw. *)
Class DataService (DS : Type) := {
  findSculptureByName :
    string -> DS -> DS * Outcome (list Sculpture.t);
  getSculpturesByArtist :
    string -> DS -> DS * Outcome (list (Sculpture.t * Artist.t));
  getSculpturesByMaterial :
    string -> DS -> DS * Outcome (list (Sculpture.t * Material.t));
  getSculpturesByPeriod :
    string -> DS -> DS * Outcome (list (Sculpture.t * Period.t))
}.

Definition returning {S A} (r : S * A) : S * Outcome A :=
  (fst r, Returned (snd r)).

#[export] Instance jsonDataService : DataService JsonDataService.t := {
  findSculptureByName name s :=
    returning (JsonDataService.findSculptureByName name s);
  getSculpturesByArtist name s :=
    returning (JsonDataService.getSculpturesByArtist name s);
  getSculpturesByMaterial name s :=
    returning (JsonDataService.getSculpturesByMaterial name s);
  getSculpturesByPeriod name s :=
    returning (JsonDataService.getSculpturesByPeriod name s)
}.

(** *** Formatting *)

Definition line (label value : string) : string :=
  label +++ value +++ newline.

(** [if (x) info += `label${x}\n`] *)
Definition optLine (label : string) (value : option string) : string :=
  match value with
  | Some v => if truthy v then line label v else ""
  | None => ""
  end.

Definition formatSculptureInfo (sculptures : list Sculpture.t) : string :=
  fold_left (fun info sculpture =>
    info
    +++ line "Name: " (Sculpture.name sculpture)
    +++ optLine "Artist: " (Some (Sculpture.artist sculpture))
    +++ optLine "Year: " (Sculpture.year sculpture)
    +++ optLine "Material: " (Sculpture.material sculpture)
    +++ optLine "Location: " (Sculpture.location sculpture)
    +++ optLine "Description: " (Sculpture.description sculpture)
    +++ optLine "Image URL: " (Sculpture.imageUrl sculpture)
    +++ optLine "Visual Description: " (Sculpture.visualDescription sculpture)
    +++ newline)
    sculptures
    (newline +++ newline +++ "SCULPTURE INFORMATION:" +++ newline).

Definition formatArtistSculptureInfo
           (results : list (Sculpture.t * Artist.t)) : string :=
  fold_left (fun info result =>
    let '(sculpture, artist) := result in
    info
    +++ line "Artist: " (Artist.name artist)
    +++ optLine "Born: " (Artist.birthYear artist)
    +++ optLine "Died: " (Artist.deathYear artist)
    +++ optLine "Nationality: " (Artist.nationality artist)
    +++ optLine "Biography: " (Artist.bio artist)
    +++ (newline +++ line "Sculpture: " (Sculpture.name sculpture))
    +++ optLine "Year: " (Sculpture.year sculpture)
    +++ optLine "Material: " (Sculpture.material sculpture)
    +++ optLine "Location: " (Sculpture.location sculpture)
    +++ optLine "Description: " (Sculpture.description sculpture)
    +++ optLine "Image URL: " (Sculpture.imageUrl sculpture)
    +++ optLine "Visual Description: " (Sculpture.visualDescription sculpture)
    +++ newline)
    results
    (newline +++ newline +++ "ARTIST AND SCULPTURE INFORMATION:" +++ newline).

Definition formatMaterialSculptureInfo
           (results : list (Sculpture.t * Material.t)) : string :=
  fold_left (fun info result =>
    let '(sculpture, material) := result in
    info
    +++ line "Material: " (Material.name material)
    +++ optLine "Properties: " (Material.properties material)
    +++ optLine "Common Uses: " (Material.uses material)
    +++ (newline +++ line "Sculpture: " (Sculpture.name sculpture))
    +++ optLine "Artist: " (Some (Sculpture.artist sculpture))
    +++ optLine "Year: " (Sculpture.year sculpture)
    +++ optLine "Location: " (Sculpture.location sculpture)
    +++ optLine "Description: " (Sculpture.description sculpture)
    +++ optLine "Image URL: " (Sculpture.imageUrl sculpture)
    +++ optLine "Visual Description: " (Sculpture.visualDescription sculpture)
    +++ newline)
    results
    (newline +++ newline +++ "MATERIAL AND SCULPTURE INFORMATION:" +++ newline).

Definition formatPeriodSculptureInfo
           (results : list (Sculpture.t * Period.t)) : string :=
  fold_left (fun info result =>
    let '(sculpture, period) := result in
    info
    +++ line "Period: " (Period.name period)
    +++ optLine "Started: " (Period.startYear period)
    +++ optLine "Ended: " (Period.endYear period)
    +++ optLine "Characteristics: " (Period.characteristics period)
    +++ (newline +++ line "Sculpture: " (Sculpture.name sculpture))
    +++ optLine "Artist: " (Some (Sculpture.artist sculpture))
    +++ optLine "Year: " (Sculpture.year sculpture)
    +++ optLine "Material: " (Sculpture.material sculpture)
    +++ optLine "Location: " (Sculpture.location sculpture)
    +++ optLine "Description: " (Sculpture.description sculpture)
    +++ optLine "Image URL: " (Sculpture.imageUrl sculpture)
    +++ optLine "Visual Description: " (Sculpture.visualDescription sculpture)
    +++ newline)
    results
    (newline +++ newline +++ "PERIOD AND SCULPTURE INFORMATION:" +++ newline).

(** *** Term extraction *)

Definition extractTermsFromText (text : string) (terms : list string)
  : list string :=
  let lowerText := toLowerCase text in
  filter (fun term => includes lowerText (toLowerCase term)) terms.

Definition commonSculptures : list string :=
  [ "David"; "Pieta"; "Venus de Milo"; "The Thinker";
    "Ecstasy of Saint Teresa"; "Bust of Nefertiti"; "Terracotta Army";
    "Winged Victory"; "Perseus with the Head of Medusa";
    "Statue of Liberty"; "Christ the Redeemer"; "Burghers of Calais" ].

Definition commonArtists : list string :=
  [ "Michelangelo"; "Bernini"; "Rodin"; "Donatello"; "Alexandros";
    "Antioch"; "Gian Lorenzo Bernini"; "Auguste Rodin" ].

Definition commonMaterials : list string :=
  [ "marble"; "bronze"; "stone"; "wood"; "clay"; "terracotta"; "steel" ].

Definition commonPeriods : list string :=
  [ "Renaissance"; "Baroque"; "Classical"; "Hellenistic"; "Modern" ].

Definition extractSculptureTerms (text : string) : list string :=
  extractTermsFromText text commonSculptures.

Definition extractArtistTerms (text : string) : list string :=
  extractTermsFromText text commonArtists.

Definition extractMaterialTerms (text : string) : list string :=
  extractTermsFromText text commonMaterials.

Definition extractPeriodTerms (text : string) : list string :=
  extractTermsFromText text commonPeriods.

Definition contextPrefix : string :=
  "Here is relevant information about the sculptures from the database: ".

(** *** The session and its handlers *)

Section Handlers.

Context {DS : Type} `{DataService DS}.

(** Whether the remote session rejects a call, given the calls made
    before it. *)
Variable rejects : list RemoteCall -> RemoteCall -> bool.

(** The state one connection owns: the field [dataService], the calls
    made on [client] and the frames given to [ws], oldest first. *)
Record Session := mkSession {
  dataService : option DS;
  calls : list RemoteCall;
  frames : list Frame
}.

Definition M (A : Type) : Type := Session -> Session * Outcome A.

Definition ret {A} (a : A) : M A := fun s => (s, Returned a).

Definition throw {A} (e : Error) : M A := fun s => (s, Thrown e).

Definition bind {A B} (m : M A) (k : A -> M B) : M B :=
  fun s =>
    match m s with
    | (s', Returned a) => k a s'
    | (s', Thrown e) => (s', Thrown e)
    end.

Local Notation "x <- m ;; k" := (bind m (fun x => k))
  (at level 61, m at next level, right associativity).
Local Notation "m ;; k" := (bind m (fun _ => k))
  (at level 61, right associativity).

(** [try { body } catch (error) { handler }] *)
Definition tryCatch {A} (body : M A) (handler : Error -> M A) : M A :=
  fun s =>
    match body s with
    | (s', Returned a) => (s', Returned a)
    | (s', Thrown e) => handler e s'
    end.

(** A call on [this.client]: recorded, then accepted or rejected. *)
Definition clientCall (c : RemoteCall) : M unit :=
  fun s =>
    let s' := mkSession (dataService s) (calls s ++ [c]) (frames s) in
    if rejects (calls s) c then (s', Thrown RemoteError)
    else (s', Returned tt).

Definition send (message : WSMessage) : M unit :=
  fun s =>
    (mkSession (dataService s) (calls s) (frames s ++ [TextFrame message]),
     Returned tt).

(** [Buffer.from(message)] shares the bytes of the [ArrayBuffer]. *)
Definition sendBinary (message : list byte) : M unit :=
  fun s =>
    (mkSession (dataService s) (calls s) (frames s ++ [BinaryFrame message]),
     Returned tt).

(** A method call on [this.dataService]; on [null] it is a
    [TypeError]. *)
Definition onDataService {R} (method : DS -> DS * Outcome R) : M R :=
  fun s =>
    match dataService s with
    | None => (s, Thrown TypeError)
    | Some ds =>
        let (ds', r) := method ds in
        (mkSession (Some ds') (calls s) (frames s), r)
    end.

(** One [for (const term of mentions) { ... break; }] loop of
    [enrichWithSculptureData], on the pair
    ([hasRelevantResults], [contextMessage]). *)
Fixpoint forMentions {R} (lookup : string -> DS -> DS * Outcome (list R))
         (format : list R -> string) (mentions : list string)
         (vars : bool * string) : M (bool * string) :=
  match mentions with
  | [] => ret vars
  | term :: rest =>
      results <- onDataService (lookup term) ;;
      if nonEmpty results
      then ret (true, snd vars +++ format results)
      else forMentions lookup format rest vars
  end.

Definition enrichWithSculptureData (userMessage : string) : M unit :=
  fun s =>
    match dataService s with
    | None => ret tt s
    | Some _ =>
        tryCatch
          (let sculptureMentions := extractSculptureTerms userMessage in
           let artistMentions := extractArtistTerms userMessage in
           let materialMentions := extractMaterialTerms userMessage in
           let periodMentions := extractPeriodTerms userMessage in
           let vars := (false, "") in
           vars <- (if nonEmpty sculptureMentions
                    then forMentions findSculptureByName formatSculptureInfo
                                     sculptureMentions vars
                    else ret vars) ;;
           vars <- (if negb (fst vars) && nonEmpty artistMentions
                    then forMentions getSculpturesByArtist
                                     formatArtistSculptureInfo
                                     artistMentions vars
                    else ret vars) ;;
           vars <- (if negb (fst vars) && nonEmpty materialMentions
                    then forMentions getSculpturesByMaterial
                                     formatMaterialSculptureInfo
                                     materialMentions vars
                    else ret vars) ;;
           vars <- (if negb (fst vars) && nonEmpty periodMentions
                    then forMentions getSculpturesByPeriod
                                     formatPeriodSculptureInfo
                                     periodMentions vars
                    else ret vars) ;;
           if fst vars && truthy (snd vars)
           then clientCall (SendItem System (contextPrefix +++ snd vars))
           else ret tt)
          (fun _ => ret tt) s
    end.

Definition hasDataService : M bool :=
  fun s =>
    (s, Returned match dataService s with Some _ => true | None => false end).

Definition handleTextMessage (message : option WSMessage) : M unit :=
  match message with
  | None => throw SyntaxError
  | Some (UserMessage _ text) =>
      tryCatch
        (present <- hasDataService ;;
         (if present && truthy text
          then enrichWithSculptureData text
          else ret tt) ;;
         clientCall (SendItem User text) ;;
         clientCall GenerateResponse)
        (fun error => throw error)
  | Some _ => ret tt
  end.

Definition handleBinaryMessage (message : list byte) : M unit :=
  tryCatch (clientCall (SendAudio message)) (fun error => throw error).

Definition handleMessage (message : Inbound) : M unit :=
  tryCatch
    (match message with
     | InBinary bytes => handleBinaryMessage bytes
     | InText parsed => handleTextMessage parsed
     end)
    (fun _ => ret tt).

(** [`${content.itemId}-${content.contentIndex}`] *)
Definition contentIdOf (itemId : string) (contentIndex : nat) : string :=
  itemId +++ "-" +++ numberToString contentIndex.

(** [for await (const text of chunks) this.send({ id, type: "text_delta",
    delta: text })] *)
Fixpoint forAwaitText (contentId : string) (chunks : Stream string)
  : M unit :=
  match chunks with
  | Done => ret tt
  | Failed => throw StreamError
  | Chunk text rest =>
      send (TextDelta contentId text) ;; forAwaitText contentId rest
  end.

Definition handleTextContent (content : RTTextContent) : M unit :=
  tryCatch
    (let contentId :=
       contentIdOf (textItemId content) (textContentIndex content) in
     forAwaitText contentId (textChunks content) ;;
     send (TextDone contentId))
    (fun error => throw error).

(** The argument of [sendBinary] in [handleAudioChunks]: the whole
    buffer under the chunk when it is an [ArrayBuffer], else a fresh
    zeroed buffer of the same length. *)
Definition bufferToSend (chunk : TypedArray) : list byte :=
  if isArrayBuffer (buffer chunk) then contents (buffer chunk)
  else repeat x00 (length (contents (buffer chunk))).

Fixpoint forAwaitAudio (chunks : Stream TypedArray) : M unit :=
  match chunks with
  | Done => ret tt
  | Failed => throw StreamError
  | Chunk chunk rest =>
      sendBinary (bufferToSend chunk) ;; forAwaitAudio rest
  end.

Definition handleAudioChunks (content : RTAudioContent) : M unit :=
  forAwaitAudio (audioChunks content).

Definition handleAudioTranscript (content : RTAudioContent) : M unit :=
  let contentId := contentIdOf (itemId content) (contentIndex content) in
  forAwaitText contentId (transcriptChunks content) ;;
  send (TextDone contentId).

(** The frames a task gives to [ws] and how it ends; the tasks of
    [handleAudioContent] read nothing of the session. *)
Definition taskFrames (task : M unit) : list Frame :=
  frames (fst (task (mkSession None [] []))).

Definition taskOutcome (task : M unit) : Outcome unit :=
  snd (task (mkSession None [] [])).

(** [Promise.all([a, b])]: rejected as soon as one of the two is. *)
Definition promiseAll (a b : Outcome unit) : Outcome unit :=
  match a, b with
  | Returned _, Returned _ => Returned tt
  | Thrown e, _ => Thrown e
  | _, Thrown e => Thrown e
  end.

End Handlers.

Arguments Session DS : clear implicits.
Arguments M DS A : clear implicits.

(** The ways two tasks' frames can fall on one socket: each keeps its
    own order. *)
Inductive Interleave {A} : list A -> list A -> list A -> Prop :=
| interleave_nil : Interleave [] [] []
| interleave_left a l1 l2 l :
    Interleave l1 l2 l -> Interleave (a :: l1) l2 (a :: l)
| interleave_right a l1 l2 l :
    Interleave l1 l2 l -> Interleave l1 (a :: l2) (a :: l).

(** [handleAudioContent]: the two tasks run under [Promise.all]; a run
    ends in a session whose socket has received some interleaving of
    what the two tasks send. *)
Inductive handleAudioContent {DS} (content : RTAudioContent) (s : Session DS)
  : Session DS -> Outcome unit -> Prop :=
| audio_run (sent : list Frame) :
    Interleave (taskFrames (DS := DS) (handleAudioChunks content))
               (taskFrames (DS := DS) (handleAudioTranscript content))
               sent ->
    handleAudioContent content s
      (mkSession (dataService s) (calls s) (frames s ++ sent))
      (promiseAll (taskOutcome (DS := DS) (handleAudioChunks content))
                  (taskOutcome (DS := DS) (handleAudioTranscript content))).

End RTSession.

(** ** The specification's wording, for comparison with the code *)

Module Spec.

Import Js.
Local Open Scope string_scope.

(** *** Reference resolution *)

(** Resolution as the specification words it: the entity whose id is
    the reference, and only when there is none, the entity whose name
    is. *)
Definition resolveIdThenName {E} (eid ename : E -> string)
           (ref : option string) (collection : list E) : option E :=
  match find (fun e => opt_is ref (eid e)) collection with
  | Some e => Some e
  | None => find (fun e => opt_is ref (ename e)) collection
  end.

(** [r] is the first element of [collection] that satisfies [p], if
    there is one. *)
Definition FirstSuch {E} (p : E -> bool) (collection : list E)
           (r : option E) : Prop :=
  match r with
  | Some e =>
      exists before after,
        collection = (before ++ e :: after)%list
        /\ p e = true
        /\ Forall (fun x => p x = false) before
  | None => Forall (fun x => p x = false) collection
  end.

(** An entity answers to a reference by its id or by its name. *)
Definition answersTo {E} (eid ename : E -> string) (ref : option string)
           (e : E) : bool :=
  opt_is ref (eid e) || opt_is ref (ename e).

(** No entity is known under [ref] by name while another one has [ref]
    as its id. *)
Definition Unambiguous {E} (eid ename : E -> string) (ref : option string)
           (collection : list E) : Prop :=
  forall e e', In e collection -> In e' collection ->
               opt_is ref (ename e) = true -> opt_is ref (eid e') = true ->
               e = e'.

(** Resolution as the code performs it: [r] is the first entity, in
    collection order, that answers to the reference; this is what
    id-then-name resolution gives whenever the reference is
    unambiguous. *)
Definition FirstAnswer {E} (eid ename : E -> string) (ref : option string)
           (collection : list E) (r : option E) : Prop :=
  FirstSuch (answersTo eid ename ref) collection r
  /\ (Unambiguous eid ename ref collection ->
      r = resolveIdThenName eid ename ref collection).

(** *** Search criteria *)

Definition containsNoCase (entityName value : string) : Prop :=
  includes (toLowerCase entityName) (toLowerCase value) = true.

(** A criterion on a reference passes when the reference resolves to an
    entity whose name contains the value. *)
Definition RefPasses {E} (ename : E -> string) (found : option E)
           (value : string) : Prop :=
  exists e, found = Some e /\ containsNoCase (ename e) value.

(** Every criterion that [supplied] holds of passes. *)
Definition PassesWhen (supplied : option string -> string -> Prop)
           (params : Params.t) (d : SculptureData) (sc : Sculpture.t) : Prop :=
  (forall v, supplied (Params.name params) v ->
             containsNoCase (Sculpture.name sc) v)
  /\ (forall v, supplied (Params.artist params) v ->
                RefPasses Artist.name (JsonDataService.artistMatch d sc) v)
  /\ (forall v, supplied (Params.material params) v ->
                RefPasses Material.name (JsonDataService.materialMatch d sc) v)
  /\ (forall v, supplied (Params.period params) v ->
                RefPasses Period.name (JsonDataService.periodMatch d sc) v)
  /\ (forall v, supplied (Params.location params) v ->
                RefPasses Location.name (JsonDataService.locationMatch d sc) v).

(** Supplied, read literally: the property is there. *)
Definition given (criterion : option string) (v : string) : Prop :=
  criterion = Some v.

(** Supplied, as the code tests it: there and not the empty string. *)
Definition givenNonEmpty (criterion : option string) (v : string) : Prop :=
  criterion = Some v /\ v <> "".

(** *** Enrichment *)

Inductive Category := BySculptureName | ByArtist | ByMaterial | ByPeriod.

Definition priority (c : Category) : nat :=
  match c with
  | BySculptureName => 0
  | ByArtist => 1
  | ByMaterial => 2
  | ByPeriod => 3
  end.

(** The candidate terms of a category, in extraction order. *)
Definition mentions (c : Category) (text : string) : list string :=
  match c with
  | BySculptureName => RTSession.extractSculptureTerms text
  | ByArtist => RTSession.extractArtistTerms text
  | ByMaterial => RTSession.extractMaterialTerms text
  | ByPeriod => RTSession.extractPeriodTerms text
  end.

Definition whenNonEmpty {R} (format : list R -> string) (results : list R)
  : option string :=
  if nonEmpty results then Some (format results) else None.

(** The formatted result of one lookup of one category, when it is not
    empty. *)
Definition contextOf (c : Category) (js : JsonDataService.t) (term : string)
  : option string :=
  match c with
  | BySculptureName =>
      whenNonEmpty RTSession.formatSculptureInfo
                   (snd (JsonDataService.findSculptureByName term js))
  | ByArtist =>
      whenNonEmpty RTSession.formatArtistSculptureInfo
                   (snd (JsonDataService.getSculpturesByArtist term js))
  | ByMaterial =>
      whenNonEmpty RTSession.formatMaterialSculptureInfo
                   (snd (JsonDataService.getSculpturesByMaterial term js))
  | ByPeriod =>
      whenNonEmpty RTSession.formatPeriodSculptureInfo
                   (snd (JsonDataService.getSculpturesByPeriod term js))
  end.

(** The service [ds] reads what [js] reads. *)
Definition SameSnapshot (js ds : JsonDataService.t) : Prop :=
  JsonDataService.snapshot ds = JsonDataService.snapshot js.

(** The first term that yields, with what it yields. *)
Fixpoint firstHit (yield : string -> option string) (terms : list string)
  : option (string * string) :=
  match terms with
  | [] => None
  | term :: rest =>
      match yield term with
      | Some ctx => Some (term, ctx)
      | None => firstHit yield rest
      end
  end.

(** The variables [hasRelevantResults] and [contextMessage] after one
    loop over [mentions], given what each lookup returns. *)
Definition afterLoop {R} (format : list R -> string)
           (results : string -> list R) (mentions : list string)
           (vars : bool * string) : bool * string :=
  match firstHit (fun term => whenNonEmpty format (results term)) mentions with
  | Some hit => (true, String.append (snd vars) (snd hit))
  | None => vars
  end.

Definition hitIn (c : Category) (js : JsonDataService.t) (text : string)
  : option (string * string) :=
  firstHit (contextOf c js) (mentions c text).

Definition tagged (c : Category) (hit : string * string)
  : Category * string * string :=
  (c, fst hit, snd hit).

(** The first category, in priority order, with a term that yields. *)
Definition selected (js : JsonDataService.t) (text : string)
  : option (Category * string * string) :=
  match hitIn BySculptureName js text with
  | Some hit => Some (tagged BySculptureName hit)
  | None =>
      match hitIn ByArtist js text with
      | Some hit => Some (tagged ByArtist hit)
      | None =>
          match hitIn ByMaterial js text with
          | Some hit => Some (tagged ByMaterial hit)
          | None => option_map (tagged ByPeriod) (hitIn ByPeriod js text)
          end
      end
  end.

Definition selectedContext (js : JsonDataService.t) (text : string)
  : option string :=
  option_map snd (selected js text).

(** Category [c] is selected through [term], which yields [ctx]: no
    term of a category of higher priority yields, no candidate of [c]
    before [term] yields, and [term] does. *)
Definition Selects (js : JsonDataService.t) (text : string)
           (c : Category) (term ctx : string) : Prop :=
  (forall c' t, priority c' < priority c -> In t (mentions c' text) ->
                contextOf c' js t = None)
  /\ (exists before after,
         mentions c text = (before ++ term :: after)%list
         /\ forall t, In t before -> contextOf c js t = None)
  /\ contextOf c js term = Some ctx.

(** The system item that carries a context. *)
Definition contextItems (context : option string) : list RTSession.RemoteCall :=
  match context with
  | Some ctx =>
      [RTSession.SendItem RTSession.System
                          (String.append RTSession.contextPrefix ctx)]
  | None => []
  end.

(** The context a session would inject for a text: none without a data
    service. *)
Definition contextFor (s : RTSession.Session JsonDataService.t)
           (text : string) : option string :=
  match RTSession.dataService s with
  | Some js => selectedContext js text
  | None => None
  end.

(** *** Text frames *)

(** One [text_delta] frame per chunk, all with the same id. *)
Definition deltaFrames (contentId : string) (chunks : list string)
  : list RTSession.Frame :=
  map (fun text => RTSession.TextFrame (RTSession.TextDelta contentId text))
      chunks.

(** *** Audio frames *)

(** The chunk is the whole of an [ArrayBuffer]. *)
Definition SpansBuffer (chunk : RTSession.TypedArray) : Prop :=
  RTSession.isArrayBuffer (RTSession.buffer chunk) = true
  /\ RTSession.byteOffset chunk = 0
  /\ RTSession.byteLength chunk
     = length (RTSession.contents (RTSession.buffer chunk)).

(** The payloads of the binary frames among [fs], in order. *)
Definition binaryPayloads (fs : list RTSession.Frame) : list (list byte) :=
  flat_map (fun f => match f with
                     | RTSession.BinaryFrame bytes => [bytes]
                     | RTSession.TextFrame _ => []
                     end) fs.

(** The text messages among [fs], in order. *)
Definition textMessages (fs : list RTSession.Frame)
  : list RTSession.WSMessage :=
  flat_map (fun f => match f with
                     | RTSession.TextFrame m => [m]
                     | RTSession.BinaryFrame _ => []
                     end) fs.

End Spec.

(** ** What a computation does to the call log and to the socket *)

Module Effects.

Import RTSession.

Section Effects.

Context {DS : Type} {A : Type}.

(** The computation makes no remote call and sends no frame. *)
Definition Quiet (m : M DS A) : Prop :=
  forall s, calls (fst (m s)) = calls s /\ frames (fst (m s)) = frames s.

(** The computation sends no frame and appends to the call log a list
    of calls that satisfies [Q]. *)
Definition Extends (Q : list RemoteCall -> Prop) (m : M DS A) : Prop :=
  forall s,
    frames (fst (m s)) = frames s
    /\ exists added, calls (fst (m s)) = calls s ++ added /\ Q added.

End Effects.

(** Nothing, or one system-role item. *)
Definition ContextOnly (added : list RemoteCall) : Prop :=
  added = [] \/ exists text, added = [SendItem System text].

End Effects.

(** ** Sample data *)

Module Sample.

Local Open Scope string_scope.

Definition michelangelo : Artist.t :=
  Artist.mk "a1" "Michelangelo" (Some "1475") (Some "1564") (Some "Italian") None.

Definition rodin : Artist.t :=
  Artist.mk "a2" "Auguste Rodin" (Some "1840") (Some "1917") (Some "French") None.

Definition marble : Material.t := Material.mk "m1" "Marble" None None.

Definition bronze : Material.t := Material.mk "m2" "Bronze" None None.

Definition renaissance : Period.t :=
  Period.mk "p1" "Renaissance" (Some "1400") (Some "1600") None.

Definition accademia : Location.t :=
  Location.mk "l1" "Galleria dell'Accademia" (Some "Florence") (Some "Italy").

Definition david : Sculpture.t :=
  Sculpture.mk "s1" "David" "a1" (Some "1504") (Some "m1") (Some "p1")
               (Some "l1") None None None.

Definition thinker : Sculpture.t :=
  Sculpture.mk "s2" "The Thinker" "Auguste Rodin" (Some "1904")
               (Some "Bronze") None None None None None.

(** A sculpture with no material and an artist nobody knows. *)
Definition untitled : Sculpture.t :=
  Sculpture.mk "s3" "Untitled" "anonymous" None None None None None None None.

Definition museum : SculptureData :=
  mkData [david; thinker; untitled] [michelangelo; rodin] [marble; bronze]
         [renaissance] [accademia].

Definition loaded : JsonDataService.t :=
  JsonDataService.mk (Some museum) (Parsed museum) 1.

(** An artist whose name is another artist's id. *)
Definition alias : Artist.t := Artist.mk "a1" "a2" None None None None.

Definition gates : Sculpture.t :=
  Sculpture.mk "s9" "The Gates of Hell" "a2" None None None None None None None.

Definition clash : SculptureData :=
  mkData [gates] [alias; rodin] [] [] [].

Definition materialBlank : Params.t :=
  Params.mk None None (Some "") None None.

(** A remote session that takes everything, and one that refuses every
    system item. *)
Definition accepting (_ : list RTSession.RemoteCall) (_ : RTSession.RemoteCall)
  : bool := false.

Definition refusingSystemItems (_ : list RTSession.RemoteCall)
           (c : RTSession.RemoteCall) : bool :=
  match c with
  | RTSession.SendItem RTSession.System _ => true
  | _ => false
  end.

(** A data service whose every lookup throws. *)
#[export] Instance broken : RTSession.DataService unit := {
  findSculptureByName _ u := (u, RTSession.Thrown RTSession.LookupError);
  getSculpturesByArtist _ u := (u, RTSession.Thrown RTSession.LookupError);
  getSculpturesByMaterial _ u := (u, RTSession.Thrown RTSession.LookupError);
  getSculpturesByPeriod _ u := (u, RTSession.Thrown RTSession.LookupError)
}.

Definition session (js : JsonDataService.t)
  : RTSession.Session JsonDataService.t :=
  RTSession.mkSession (Some js) [] [].

Definition blank : RTSession.Session unit := RTSession.mkSession None [] [].

(** A two-byte window at offset two of a four-byte buffer. *)
Definition window : RTSession.TypedArray :=
  RTSession.mkArray (RTSession.mkBuffer true [x01; x02; x03; x04]) 2 2.

Definition whole : RTSession.TypedArray :=
  RTSession.mkArray (RTSession.mkBuffer true [x01; x02; x03; x04]) 0 4.

(** Four bytes on a buffer that is not an [ArrayBuffer]. *)
Definition shared : RTSession.TypedArray :=
  RTSession.mkArray (RTSession.mkBuffer false [x01; x02; x03; x04]) 0 4.

Definition sharedContent : RTSession.RTAudioContent :=
  RTSession.mkAudio "item_1" 0 (RTSession.streamOf [shared])
                    (RTSession.streamOf ["Hi"]).

(** The museum loaded, and the file now holding [null]. *)
Definition loadedThenNull : JsonDataService.t :=
  JsonDataService.withFile ParsedNull loaded.

Definition windowContent : RTSession.RTAudioContent :=
  RTSession.mkAudio "item_1" 0 (RTSession.streamOf [window])
                    (RTSession.streamOf ["Hi"]).

End Sample.

(** ** The remaining handlers of [RTSession] *)

Module RTEvents.

Import Js RTSession.
Local Open Scope string_scope.

(** An input-audio item: its id, whether [waitForCompletion] resolves,
    and the transcription it then carries. *)
Record RTInputAudioItem := mkInputAudio {
  inputId : string;
  completes : bool;
  transcription : option string
}.

(** The content of a message item, by its [type]. *)
Inductive RTContent :=
| TextContent (content : RTTextContent)
| AudioContent (content : RTAudioContent)
| OtherContent.

(** An item of a response, by its [type]. *)
Inductive RTItem :=
| MessageItem (contents : Stream RTContent)
| OtherItem.

Definition RTResponse : Type := Stream RTItem.

(** An event of [client.events()], by its [type]. *)
Inductive RTEvent :=
| ResponseEvent (event : RTResponse)
| InputAudioEvent (event : RTInputAudioItem)
| OtherEvent.

(** [x || fallback] on an optional string. *)
Definition orElse (x : option string) (fallback : string) : string :=
  match x with
  | Some t => if truthy t then t else fallback
  | None => fallback
  end.

Definition guidePrompt : string :=
  "You are a friendly and enthusiastic sculpture guide named Art. Your tone is warm, engaging, and conversational - like a passionate friend sharing interesting stories about art. You love to make sculpture knowledge accessible and fun for everyone. Use casual language, occasional humor, and relatable examples when explaining complex concepts. When you receive questions about sculptures, use the database information provided to answer accurately, but present it in an engaging, conversational way. If specific information isn't available in the database, you may provide general knowledge, but clearly indicate this with phrases like 'Beyond our collection...' or 'Art historians generally believe...'".

Definition databasePrompt : string :=
  "The database contains fascinating information about sculptures, including details about the artists, materials used, historical context, and where they are currently displayed. It also includes image URLs and detailed visual descriptions of each sculpture. For visually impaired users, emphasize these visual descriptions to help them form a mental image of the artwork. When discussing any sculpture, always include its visual aspects - describe colors, shapes, textures, expressions, poses, and other important visual elements in rich, evocative language. Share this information with enthusiasm and help users discover the amazing stories and visual beauty behind these works. Feel free to express appreciation for the craftsmanship and beauty of the sculptures you discuss. Respond as if you're giving a personal, immersive tour through a museum - knowledgeable but approachable and engaging, with special attention to helping visually impaired users experience the art through your descriptions.".

Section Events.

Context {DS : Type}.

Definition waitForCompletion (event : RTInputAudioItem) : M DS unit :=
  if completes event then ret tt else throw StreamError.

Definition handleInputAudio (event : RTInputAudioItem) : M DS unit :=
  tryCatch
    (bind (send SpeechStarted) (fun _ =>
     bind (waitForCompletion event) (fun _ =>
     send (Transcription (inputId event)
                         (orElse (transcription event) "")))))
    (fun error => throw error).

(** A handler that may run in several ways: from a session, the session
    it ends in and how it ends. *)
Definition Run : Type := Session DS -> Session DS -> Outcome unit -> Prop.

Definition runs (m : M DS unit) : Run :=
  fun s s' out => m s = (s', out).

(** No branch of the [if] applies: the loop goes on. *)
Definition skips : Run :=
  fun s s' out => s' = s /\ out = Returned tt.

(** [for await (const a of stream) await body(a)]: the first throw of
    the body, or the rejection of the stream, ends the loop. *)
Inductive forAwait {A : Type} (body : A -> Run) : Stream A -> Run :=
| forAwait_done s :
    forAwait body Done s s (Returned tt)
| forAwait_failed s :
    forAwait body Failed s s (Thrown StreamError)
| forAwait_next a rest s s1 s2 out :
    body a s s1 (Returned tt) ->
    forAwait body rest s1 s2 out ->
    forAwait body (Chunk a rest) s s2 out
| forAwait_throw a rest s s1 e :
    body a s s1 (Thrown e) ->
    forAwait body (Chunk a rest) s s1 (Thrown e).

Definition handleContent (content : RTContent) : Run :=
  match content with
  | TextContent text => runs (handleTextContent text)
  | AudioContent audio => handleAudioContent audio
  | OtherContent => skips
  end.

Definition handleItem (item : RTItem) : Run :=
  match item with
  | MessageItem contents => forAwait handleContent contents
  | OtherItem => skips
  end.

(** The [catch] of [handleResponse] logs and throws the error again. *)
Definition handleResponse (event : RTResponse) : Run :=
  forAwait handleItem event.

Definition handleEvent (event : RTEvent) : Run :=
  match event with
  | ResponseEvent response => handleResponse response
  | InputAudioEvent input => runs (handleInputAudio input)
  | OtherEvent => skips
  end.

(** A [sendItem] that is not awaited: the call is made, what comes of
    it is not looked at. *)
Definition fire (c : RemoteCall) (s : Session DS) : Session DS :=
  mkSession (dataService s) (calls s ++ [c]) (frames s).

Definition startEventLoop (events : Stream RTEvent) : Run :=
  fun s s' out =>
    forAwait handleEvent events
             (fire (SendItem System databasePrompt)
                   (fire (SendItem System guidePrompt) s))
             s' out.

(** The session with more frames on the socket. *)
Definition extend (s : Session DS) (sent : list Frame) : Session DS :=
  mkSession (dataService s) (calls s) (frames s ++ sent).

(** Every run of the handler leaves the data service and the call log
    as they were and only adds frames. *)
Definition FramesOnly (r : Run) : Prop :=
  forall s s' out,
    r s s' out ->
    dataService s' = dataService s
    /\ calls s' = calls s
    /\ exists sent, frames s' = (frames s ++ sent)%list.

(** The handler has a run from every session. *)
Definition Total (r : Run) : Prop :=
  forall s, exists s' out, r s s' out.

End Events.

(** [initializeDataService], given what the file at the resolved path
    holds: the service is created and put in the field, then loaded; a
    failed load puts [null] back. *)
Definition initializeDataService (file : LoadOutcome)
  : M JsonDataService.t unit :=
  tryCatch
    (fun s =>
       let created := JsonDataService.create file in
       let (service, loaded) := JsonDataService.loadData created in
       if loaded
       then (mkSession (Some service) (calls s) (frames s), Returned tt)
       else (mkSession None (calls s) (frames s), Returned tt))
    (fun _ s => (mkSession None (calls s) (frames s), Returned tt)).

(** A stream that delivers [chunks] and goes on as [rest]. *)
Fixpoint followedBy {A} (chunks : list A) (rest : Stream A) : Stream A :=
  match chunks with
  | [] => rest
  | a :: chunks' => Chunk a (followedBy chunks' rest)
  end.

(** The parsed text is a message of type [user_message]. *)
Definition isUserMessage (parsed : option WSMessage) : bool :=
  match parsed with
  | Some (UserMessage _ _) => true
  | _ => false
  end.

(** A stream that delivers [chunks] and is then rejected. *)
Fixpoint failingAfter {A} (chunks : list A) : Stream A :=
  match chunks with
  | [] => Failed
  | a :: rest => Chunk a (failingAfter rest)
  end.

(** A text content item whose stream delivers the chunks and ends. *)
Definition textItem (content : string * nat * list string) : RTContent :=
  let '(itemId, contentIndex, chunks) := content in
  TextContent (mkText itemId contentIndex (streamOf chunks)).

(** The frames of one such item. *)
Definition textItemFrames (content : string * nat * list string)
  : list Frame :=
  let '(itemId, contentIndex, chunks) := content in
  Spec.deltaFrames (contentIdOf itemId contentIndex) chunks
  ++ [TextFrame (TextDone (contentIdOf itemId contentIndex))].

(** A content of a response without audio: a text content item, or a
    content of another type. *)
Definition contentOf (content : option (string * nat * list string))
  : RTContent :=
  match content with
  | Some text => textItem text
  | None => OtherContent
  end.

Definition contentFrames (content : option (string * nat * list string))
  : list Frame :=
  match content with
  | Some text => textItemFrames text
  | None => []
  end.

(** An item of such a response: a message with its contents, or an item
    of another type. *)
Definition itemOf (item : option (list (option (string * nat * list string))))
  : RTItem :=
  match item with
  | Some contents => MessageItem (streamOf (map contentOf contents))
  | None => OtherItem
  end.

Definition itemFrames (item : option (list (option (string * nat * list string))))
  : list Frame :=
  match item with
  | Some contents => concat (map contentFrames contents)
  | None => []
  end.

End RTEvents.

(** ** Notions used to state further properties *)

Module Notions.

Import Js.
Local Open Scope string_scope.

(** [pat] occurs in [s]. *)
Definition OccursIn (pat s : string) : Prop :=
  exists pre post, s = pre ++ pat ++ post.

(** [r] is what a lookup by id may answer for [ident]. *)
Definition FoundById {E} (eid : E -> string) (collection : list E)
           (ident : string) (r : option E) : Prop :=
  match r with
  | Some e => In e collection /\ eid e = ident
  | None => forall e, In e collection -> eid e <> ident
  end.

(** The ten lookups answer the same on [s1] as on [s2]. *)
Definition SameAnswers (s1 s2 : JsonDataService.t) (name ident : string)
           (params : Params.t) : Prop :=
  snd (JsonDataService.findSculptureByName name s1)
  = snd (JsonDataService.findSculptureByName name s2)
  /\ snd (JsonDataService.getSculptureById ident s1)
     = snd (JsonDataService.getSculptureById ident s2)
  /\ snd (JsonDataService.getSculpturesByArtist name s1)
     = snd (JsonDataService.getSculpturesByArtist name s2)
  /\ snd (JsonDataService.getSculpturesByMaterial name s1)
     = snd (JsonDataService.getSculpturesByMaterial name s2)
  /\ snd (JsonDataService.getSculpturesByPeriod name s1)
     = snd (JsonDataService.getSculpturesByPeriod name s2)
  /\ snd (JsonDataService.searchSculptures params s1)
     = snd (JsonDataService.searchSculptures params s2)
  /\ snd (JsonDataService.getArtistById ident s1)
     = snd (JsonDataService.getArtistById ident s2)
  /\ snd (JsonDataService.getMaterialById ident s1)
     = snd (JsonDataService.getMaterialById ident s2)
  /\ snd (JsonDataService.getPeriodById ident s1)
     = snd (JsonDataService.getPeriodById ident s2)
  /\ snd (JsonDataService.getLocationById ident s1)
     = snd (JsonDataService.getLocationById ident s2).

(** The criterion [c'] is absent or is [c]. *)
Definition Drops (c' c : option string) : Prop := c' = None \/ c' = c.

(** [p'] asks for no more than [p]. *)
Definition Weaker (p' p : Params.t) : Prop :=
  Drops (Params.name p') (Params.name p)
  /\ Drops (Params.artist p') (Params.artist p)
  /\ Drops (Params.material p') (Params.material p)
  /\ Drops (Params.period p') (Params.period p)
  /\ Drops (Params.location p') (Params.location p).

Definition joined (paragraphs : list string) : string :=
  fold_right String.append "" paragraphs.

Definition sculptureLines (sculpture : Sculpture.t) : string :=
  RTSession.optLine "Description: " (Sculpture.description sculpture)
  ++ RTSession.optLine "Image URL: " (Sculpture.imageUrl sculpture)
  ++ RTSession.optLine "Visual Description: "
                       (Sculpture.visualDescription sculpture)
  ++ newline.

Definition sculptureParagraph (sculpture : Sculpture.t) : string :=
  RTSession.line "Name: " (Sculpture.name sculpture)
  ++ RTSession.optLine "Artist: " (Some (Sculpture.artist sculpture))
  ++ RTSession.optLine "Year: " (Sculpture.year sculpture)
  ++ RTSession.optLine "Material: " (Sculpture.material sculpture)
  ++ RTSession.optLine "Location: " (Sculpture.location sculpture)
  ++ sculptureLines sculpture.

Definition artistParagraph (result : Sculpture.t * Artist.t) : string :=
  let '(sculpture, artist) := result in
  RTSession.line "Artist: " (Artist.name artist)
  ++ RTSession.optLine "Born: " (Artist.birthYear artist)
  ++ RTSession.optLine "Died: " (Artist.deathYear artist)
  ++ RTSession.optLine "Nationality: " (Artist.nationality artist)
  ++ RTSession.optLine "Biography: " (Artist.bio artist)
  ++ newline
  ++ RTSession.line "Sculpture: " (Sculpture.name sculpture)
  ++ RTSession.optLine "Year: " (Sculpture.year sculpture)
  ++ RTSession.optLine "Material: " (Sculpture.material sculpture)
  ++ RTSession.optLine "Location: " (Sculpture.location sculpture)
  ++ sculptureLines sculpture.

Definition materialParagraph (result : Sculpture.t * Material.t) : string :=
  let '(sculpture, material) := result in
  RTSession.line "Material: " (Material.name material)
  ++ RTSession.optLine "Properties: " (Material.properties material)
  ++ RTSession.optLine "Common Uses: " (Material.uses material)
  ++ newline
  ++ RTSession.line "Sculpture: " (Sculpture.name sculpture)
  ++ RTSession.optLine "Artist: " (Some (Sculpture.artist sculpture))
  ++ RTSession.optLine "Year: " (Sculpture.year sculpture)
  ++ RTSession.optLine "Location: " (Sculpture.location sculpture)
  ++ sculptureLines sculpture.

Definition periodParagraph (result : Sculpture.t * Period.t) : string :=
  let '(sculpture, period) := result in
  RTSession.line "Period: " (Period.name period)
  ++ RTSession.optLine "Started: " (Period.startYear period)
  ++ RTSession.optLine "Ended: " (Period.endYear period)
  ++ RTSession.optLine "Characteristics: " (Period.characteristics period)
  ++ newline
  ++ RTSession.line "Sculpture: " (Sculpture.name sculpture)
  ++ RTSession.optLine "Artist: " (Some (Sculpture.artist sculpture))
  ++ RTSession.optLine "Year: " (Sculpture.year sculpture)
  ++ RTSession.optLine "Material: " (Sculpture.material sculpture)
  ++ RTSession.optLine "Location: " (Sculpture.location sculpture)
  ++ sculptureLines sculpture.

Definition header (title : string) : string :=
  newline ++ newline ++ title ++ newline.

(** The character that [contentIdOf] puts between the item id and the
    content index. *)
Definition isDash (c : ascii) : bool := Ascii.eqb c "-"%char.

Fixpoint dashFree (s : string) : bool :=
  match s with
  | EmptyString => true
  | String c s' => negb (isDash c) && dashFree s'
  end.

End Notions.

(** ** The entity store *)

Module StoreFacts.

Import Js JsonDataService.

Lemma filter_all {A} (p : A -> bool) (l : list A) :
  (forall x, p x = true) -> filter p l = l.
Proof.
  intros Hp. induction l as [|a l IH]; simpl.
  - reflexivity.
  - rewrite Hp, IH. reflexivity.
Qed.

Lemma ensureData_loaded s d : data s = Some d -> ensureData s = s.
Proof. unfold ensureData. intros ->. reflexivity. Qed.

(** *** Loading *)

(** C6, amended. [loadData] assigns the store once, after the read and
    the parse have both succeeded. On a read or parse failure it reports
    failure and leaves the store exactly as it was before the call (a
    previous snapshot, or nothing), so that every lookup answers as
    before. On a successful parse it reports success and the store is
    replaced, at once and as a whole, by what the file holds, nothing
    of the previous state remaining: the file's dataset when it holds
    one, and nothing when it holds [null], in which case the store is
    unset and a snapshot loaded before is lost although success is
    reported. The file holds a dataset of the declared interface or
    [null]. *)
Theorem loadData_all_or_nothing (s : t) (name ident : string)
        (params : Params.t) :
  (snd (loadData s) = false
   /\ (file s = ReadError \/ file s = ParseError)
   /\ data (fst (loadData s)) = data s
   /\ Notions.SameAnswers (fst (loadData s)) s name ident params)
  \/ (snd (loadData s) = true
      /\ ((exists d, file s = Parsed d /\ data (fst (loadData s)) = Some d)
          \/ (file s = ParsedNull /\ data (fst (loadData s)) = None))
      /\ forall s0,
           file s0 = file s ->
           data (fst (loadData s0)) = data (fst (loadData s))
           /\ Notions.SameAnswers (fst (loadData s0)) (fst (loadData s))
                                  name ident params).
Proof.
  destruct s as [dt f n]. destruct f as [| |d|]; simpl.
  - left. split; [reflexivity|]. split; [auto|]. split; [reflexivity|].
    destruct dt; repeat split.
  - left. split; [reflexivity|]. split; [auto|]. split; [reflexivity|].
    destruct dt; repeat split.
  - right. split; [reflexivity|]. split; [left; exists d; auto|].
    intros [dt0 f0 n0]. simpl. intros ->. repeat split.
  - right. split; [reflexivity|]. split; [right; auto|].
    intros [dt0 f0 n0]. simpl. intros ->. repeat split.
Qed.

Lemma loadData_all_or_nothing_witness :
  file Sample.loaded = file (create (Parsed Sample.museum))
  /\ data (fst (loadData Sample.loaded))
     = data (fst (loadData (create (Parsed Sample.museum))))
  /\ Notions.SameAnswers (fst (loadData Sample.loaded))
                         (fst (loadData (create (Parsed Sample.museum))))
                         "David" "s1" Params.none.
Proof.
  split; [reflexivity|].
  destruct (loadData_all_or_nothing (create (Parsed Sample.museum))
                                    "David" "s1" Params.none)
    as [(Hfalse & _)|(_ & _ & Hsame)].
  - discriminate Hfalse.
  - apply (Hsame Sample.loaded). reflexivity.
Defined.

(** The museum is loaded and the file now holds [null]: the load
    reports success, the store is unset afterwards and the sculpture
    that was found before the call is found no more. *)
Lemma load_of_null_counterexample :
  data Sample.loadedThenNull = Some Sample.museum
  /\ snd (loadData Sample.loadedThenNull) = true
  /\ data (fst (loadData Sample.loadedThenNull)) = None
  /\ snd (findSculptureByName "David" Sample.loadedThenNull) = [Sample.david]
  /\ snd (findSculptureByName "David" (fst (loadData Sample.loadedThenNull)))
     = [].
Proof. repeat split. Qed.

(** *** Search *)

(** C10. On a loaded store, a search with no criterion at all returns
    every sculpture of the store, in store order. *)
Theorem search_without_criteria (d : SculptureData) (f : LoadOutcome) (n : nat) :
  snd (searchSculptures Params.none (mk (Some d) f n)) = sculptures d.
Proof.
  unfold searchSculptures. simpl.
  apply filter_all. intros sc. reflexivity.
Qed.

Lemma nameCheck_iff criterion sc :
  nameCheck criterion sc = true
  <-> forall v, Spec.givenNonEmpty criterion v ->
                Spec.containsNoCase (Sculpture.name sc) v.
Proof.
  unfold nameCheck, Spec.givenNonEmpty, Spec.containsNoCase, nameHas, truthy.
  destruct criterion as [v|].
  - destruct (String.eqb_spec v EmptyString) as [->|Hne]; simpl.
    + split; [|reflexivity]. intros _ v' [Hv Hv']. congruence.
    + split.
      * intros Hin v' [Hv _]. injection Hv as <-. exact Hin.
      * intros Hall. apply Hall. auto.
  - split; [|reflexivity]. intros _ v [Hv _]. discriminate.
Qed.

Lemma refCheck_iff {E} (ename : E -> string) criterion found :
  refCheck ename criterion found = true
  <-> forall v, Spec.givenNonEmpty criterion v -> Spec.RefPasses ename found v.
Proof.
  unfold refCheck, Spec.givenNonEmpty, Spec.RefPasses, Spec.containsNoCase,
    nameHas, truthy.
  destruct criterion as [v|].
  - destruct (String.eqb_spec v EmptyString) as [->|Hne]; simpl.
    + split; [|reflexivity]. intros _ v' [Hv Hv']. congruence.
    + destruct found as [e|]; split.
      * intros Hin v' [Hv _]. injection Hv as <-. exists e. auto.
      * intros Hall. destruct (Hall v) as [e' [He' Hin]]; [auto|].
        injection He' as <-. exact Hin.
      * discriminate.
      * intros Hall. destruct (Hall v) as [e' [He' _]]; [auto|]. discriminate.
  - split; [|reflexivity]. intros _ v [Hv _]. discriminate.
Qed.

Lemma searchFilter_checks params d sc :
  searchFilter params d sc
  = nameCheck (Params.name params) sc
    && refCheck Artist.name (Params.artist params) (artistMatch d sc)
    && refCheck Material.name (Params.material params) (materialMatch d sc)
    && refCheck Period.name (Params.period params) (periodMatch d sc)
    && refCheck Location.name (Params.location params) (locationMatch d sc).
Proof.
  unfold searchFilter.
  destruct (nameCheck _ _), (refCheck Artist.name _ _),
    (refCheck Material.name _ _), (refCheck Period.name _ _),
    (refCheck Location.name _ _); reflexivity.
Qed.

Lemma searchFilter_iff params d sc :
  searchFilter params d sc = true
  <-> Spec.PassesWhen Spec.givenNonEmpty params d sc.
Proof.
  rewrite searchFilter_checks. unfold Spec.PassesWhen.
  rewrite !andb_true_iff, nameCheck_iff, !refCheck_iff. tauto.
Qed.

(** C7, amended. On a loaded store, for every criteria object, search
    returns, in store order, exactly the sculptures that pass every
    criterion whose value is a non-empty string (an empty string counts
    as not supplied): the name criterion asks that the sculpture's name
    contain the value, case-insensitively; every other criterion asks
    that the sculpture's reference resolve to an entity whose name
    contains the value, case-insensitively, so that a sculpture whose
    reference is missing or resolves to nothing fails it. *)
Theorem search_is_conjunctive (params : Params.t) (s : t) (d : SculptureData) :
  data s = Some d ->
  exists keep,
    snd (searchSculptures params s) = filter keep (sculptures d)
    /\ forall sc, keep sc = true
                  <-> Spec.PassesWhen Spec.givenNonEmpty params d sc.
Proof.
  intros Hd. exists (searchFilter params d). split.
  - unfold searchSculptures. rewrite (ensureData_loaded _ Hd), Hd. reflexivity.
  - intros sc. apply searchFilter_iff.
Qed.

Lemma search_is_conjunctive_witness :
  data Sample.loaded = Some Sample.museum
  /\ exists keep,
       snd (searchSculptures (Params.mk None None (Some "bronze"%string) None None)
                             Sample.loaded)
       = filter keep (sculptures Sample.museum)
       /\ forall sc, keep sc = true
                     <-> Spec.PassesWhen Spec.givenNonEmpty
                           (Params.mk None None (Some "bronze"%string) None None)
                           Sample.museum sc.
Proof.
  split; [reflexivity|].
  apply (search_is_conjunctive
           (Params.mk None None (Some "bronze"%string) None None)
           Sample.loaded).
  reflexivity.
Defined.

(** With the material criterion set to the empty string, the sculpture
    that has no material is returned, although read literally the
    criterion is supplied and the sculpture's reference resolves to
    nothing. *)
Lemma search_blank_criterion_counterexample :
  In Sample.untitled (snd (searchSculptures Sample.materialBlank Sample.loaded))
  /\ ~ Spec.PassesWhen Spec.given Sample.materialBlank Sample.museum
                       Sample.untitled.
Proof.
  split.
  - vm_compute. auto.
  - intros (_ & _ & Hmaterial & _).
    destruct (Hmaterial EmptyString) as [e [He _]]; [reflexivity|].
    discriminate.
Qed.

Example search_bronze :
  snd (searchSculptures (Params.mk None None (Some "bronze"%string) None None)
                        Sample.loaded)
  = [Sample.thinker].
Proof. reflexivity. Qed.

(** *** Reference resolution *)

Lemma find_first {E} (p : E -> bool) (l : list E) :
  Spec.FirstSuch p l (find p l).
Proof.
  induction l as [|a l IH]; simpl.
  - constructor.
  - destruct (p a) eqn:Hpa.
    + exists [], l. auto.
    + destruct (find p l) as [e|]; simpl in *.
      * destruct IH as (before & after & -> & He & Hbefore).
        exists (a :: before), after. auto.
      * constructor; assumption.
Qed.

Lemma find_none_forall {E} (p : E -> bool) (l : list E) :
  find p l = None -> forall x, In x l -> p x = false.
Proof. intros Hnone x Hx. exact (find_none p l Hnone x Hx). Qed.

Lemma refMatch_id_then_name {E} (eid ename : E -> string) ref (l : list E) :
  Spec.Unambiguous eid ename ref l ->
  refMatch eid ename ref l = Spec.resolveIdThenName eid ename ref l.
Proof.
  unfold refMatch, Spec.resolveIdThenName.
  induction l as [|a l IH]; intros Hun; simpl.
  - reflexivity.
  - destruct (opt_is ref (eid a)) eqn:Hid; simpl; [reflexivity|].
    assert (Hrest : Spec.Unambiguous eid ename ref l).
    { intros e e' He He'. apply Hun; right; assumption. }
    specialize (IH Hrest).
    destruct (opt_is ref (ename a)) eqn:Hname.
    + destruct (find (fun e => opt_is ref (eid e)) l) as [e'|] eqn:Hfind.
      * apply find_some in Hfind. destruct Hfind as [Hin He'].
        assert (a = e') by (apply Hun; simpl; auto).
        subst e'. congruence.
      * reflexivity.
    + rewrite IH.
      destruct (find (fun e => opt_is ref (eid e)) l); reflexivity.
Qed.

Lemma refMatch_first_answer {E} (eid ename : E -> string) ref (l : list E) :
  Spec.FirstAnswer eid ename ref l (refMatch eid ename ref l).
Proof.
  split.
  - apply find_first.
  - apply refMatch_id_then_name.
Qed.

(** C4, amended. For every sculpture and each of its four reference
    fields, the reference resolves to the first entity of the
    collection, in store order, whose id or whose name equals the
    reference (exact, case-sensitive). This is the entity that
    id-then-name resolution gives whenever no entity has the reference
    as its name while a different entity has it as its id. *)
Theorem references_resolve_to_first_answer (d : SculptureData) (sc : Sculpture.t) :
  Spec.FirstAnswer Artist.id Artist.name (Some (Sculpture.artist sc))
                   (artists d) (artistMatch d sc)
  /\ Spec.FirstAnswer Material.id Material.name (Sculpture.material sc)
                      (materials d) (materialMatch d sc)
  /\ Spec.FirstAnswer Period.id Period.name (Sculpture.period sc)
                      (periods d) (periodMatch d sc)
  /\ Spec.FirstAnswer Location.id Location.name (Sculpture.location sc)
                      (locations d) (locationMatch d sc).
Proof.
  unfold artistMatch, materialMatch, periodMatch, locationMatch.
  repeat split; apply refMatch_first_answer.
Qed.

Lemma references_resolve_to_first_answer_witness :
  Spec.Unambiguous Artist.id Artist.name
                   (Some (Sculpture.artist Sample.david))
                   (artists Sample.museum)
  /\ artistMatch Sample.museum Sample.david
     = Spec.resolveIdThenName Artist.id Artist.name
                              (Some (Sculpture.artist Sample.david))
                              (artists Sample.museum).
Proof.
  assert (Hun : Spec.Unambiguous Artist.id Artist.name
                  (Some (Sculpture.artist Sample.david))
                  (artists Sample.museum)).
  { intros e e' [<-|[<-|[]]] [<-|[<-|[]]]; simpl; intros;
      try discriminate; reflexivity. }
  split; [exact Hun|].
  exact (proj2 (proj1 (references_resolve_to_first_answer
                         Sample.museum Sample.david)) Hun).
Defined.

(** The sculpture's artist reference is the id of the second artist
    and the name of the first: the code resolves it to the first, by
    name, where id-then-name resolution gives the second. *)
Lemma id_before_name_counterexample :
  artistMatch Sample.clash Sample.gates = Some Sample.alias
  /\ Spec.resolveIdThenName Artist.id Artist.name
                            (Some (Sculpture.artist Sample.gates))
                            (artists Sample.clash)
     = Some Sample.rodin
  /\ Sample.alias <> Sample.rodin.
Proof. repeat split; try reflexivity. discriminate. Qed.

(** *** Lookups on a store that failed to load *)

(** C5, amended. After the load of a never-loaded store has failed,
    and as long as the file still cannot be read or parsed, every
    lookup first retries the load once, by itself, and waits for it;
    the retry failing too, the lookup returns the empty sequence or the
    absent result without raising and the store stays unset. *)
Theorem lookups_after_failed_load
        (s0 : t) (name ident : string) (params : Params.t) :
  data s0 = None ->
  snd (loadData s0) = false ->
  let s := fst (loadData s0) in
  let s' := mk None (file s) (S (reads s)) in
  findSculptureByName name s = (s', [])
  /\ getSculptureById ident s = (s', None)
  /\ getSculpturesByArtist name s = (s', [])
  /\ getSculpturesByMaterial name s = (s', [])
  /\ getSculpturesByPeriod name s = (s', [])
  /\ searchSculptures params s = (s', [])
  /\ getArtistById ident s = (s', None)
  /\ getMaterialById ident s = (s', None)
  /\ getPeriodById ident s = (s', None)
  /\ getLocationById ident s = (s', None).
Proof.
  destruct s0 as [d f n]. simpl. intros ->.
  unfold loadData. simpl.
  destruct f; simpl; intros Hfail; try discriminate;
    repeat split; reflexivity.
Qed.

Lemma lookups_after_failed_load_witness :
  data (create ReadError) = None
  /\ snd (loadData (create ReadError)) = false
  /\ findSculptureByName "David" (fst (loadData (create ReadError)))
     = (mk None ReadError 2, []).
Proof.
  split; [reflexivity|]. split; [reflexivity|].
  exact (proj1 (lookups_after_failed_load
                  (create ReadError) "David" "s1" Params.none
                  eq_refl eq_refl)).
Defined.

(** After a failed load, a lookup reads the file again by itself; and
    once the file has become readable, that lookup loads the store and
    answers from it. *)
Lemma lookup_reloads_counterexample :
  let s1 := fst (loadData (create ReadError)) in
  snd (loadData (create ReadError)) = false
  /\ reads s1 = 1
  /\ reads (fst (findSculptureByName "David" s1)) = 2
  /\ findSculptureByName "David" (withFile (Parsed Sample.museum) s1)
     = (mk (Some Sample.museum) (Parsed Sample.museum) 2, [Sample.david]).
Proof. repeat split. Qed.

End StoreFacts.

(** ** The session coordinator *)

Module SessionFacts.

Import Js RTSession Effects.

Section Generic.

Context {DS : Type} `{DataService DS}.
Variable rejects : list RemoteCall -> RemoteCall -> bool.

Lemma quiet_ret {A} (a : A) : Quiet (ret (DS := DS) a).
Proof. intros s. split; reflexivity. Qed.

Lemma quiet_bind {A B} (m : M DS A) (k : A -> M DS B) :
  Quiet m -> (forall a, Quiet (k a)) -> Quiet (bind m k).
Proof.
  intros Hm Hk s. unfold bind.
  destruct (Hm s) as [Hc Hf].
  destruct (m s) as [s1 [a|e]]; simpl in *.
  - destruct (Hk a s1) as [Hc' Hf']. split; congruence.
  - split; assumption.
Qed.

Lemma quiet_onDataService {R} (method : DS -> DS * Outcome R) :
  Quiet (onDataService method).
Proof.
  intros s. unfold onDataService.
  destruct (dataService s) as [ds|]; [destruct (method ds)|];
    split; reflexivity.
Qed.

Lemma quiet_forMentions {R} (lookup : string -> DS -> DS * Outcome (list R))
      (format : list R -> string) (mentions : list string) vars :
  Quiet (forMentions lookup format mentions vars).
Proof.
  induction mentions as [|term rest IH]; simpl.
  - apply quiet_ret.
  - apply quiet_bind; [apply quiet_onDataService|].
    intros results. destruct (nonEmpty results); [apply quiet_ret|exact IH].
Qed.

Lemma extends_quiet {A} (Q : list RemoteCall -> Prop) (m : M DS A) :
  Q [] -> Quiet m -> Extends Q m.
Proof.
  intros HQ Hm s. destruct (Hm s) as [Hc Hf]. split; [exact Hf|].
  exists []. rewrite app_nil_r. auto.
Qed.

Lemma extends_bind {A B} (Q : list RemoteCall -> Prop)
      (m : M DS A) (k : A -> M DS B) :
  Q [] -> Quiet m -> (forall a, Extends Q (k a)) -> Extends Q (bind m k).
Proof.
  intros HQ Hm Hk s. unfold bind.
  destruct (Hm s) as [Hc Hf].
  destruct (m s) as [s1 [a|e]]; simpl in *.
  - destruct (Hk a s1) as [Hf' (added & Hc' & Hadded)].
    split; [congruence|]. exists added. split; [congruence|exact Hadded].
  - split; [exact Hf|]. exists []. rewrite app_nil_r. auto.
Qed.

Lemma extends_tryCatch {A} (Q : list RemoteCall -> Prop)
      (body : M DS A) (a : A) :
  Extends Q body -> Extends Q (tryCatch body (fun _ => ret a)).
Proof.
  intros Hbody s. unfold tryCatch. specialize (Hbody s).
  destruct (body s) as [s1 [x|e]]; exact Hbody.
Qed.

Lemma extends_clientCall (c : RemoteCall) :
  Extends (fun added => added = [c]) (clientCall rejects c : M DS unit).
Proof.
  intros s. unfold clientCall.
  destruct (rejects (calls s) c); simpl; (split; [reflexivity|]);
    exists [c]; auto.
Qed.

Lemma swallowed (body : M DS unit) s :
  snd (tryCatch body (fun _ => ret tt) s) = Returned tt.
Proof.
  unfold tryCatch. destruct (body s) as [s1 [[]|e]]; reflexivity.
Qed.

Lemma enrich_returns text s :
  snd (enrichWithSculptureData rejects text s) = Returned tt.
Proof.
  unfold enrichWithSculptureData.
  destruct (dataService s); [apply swallowed|reflexivity].
Qed.

Lemma enrich_extends text :
  Extends ContextOnly (enrichWithSculptureData rejects text).
Proof.
  assert (Hnil : ContextOnly []) by (left; reflexivity).
  intros s. unfold enrichWithSculptureData.
  destruct (dataService s) as [ds|];
    [|apply (extends_quiet ContextOnly Hnil (quiet_ret tt))].
  apply extends_tryCatch.
  repeat (apply extends_bind;
          [ exact Hnil
          | match goal with
            | |- Quiet (if ?b then _ else _) =>
                destruct b; [apply quiet_forMentions|apply quiet_ret]
            end
          | intros ? ]).
  match goal with
  | |- Extends _ (if ?b then _ else _) => destruct b
  end.
  - intros s'. destruct (extends_clientCall
                           (SendItem System
                              (String.append contextPrefix (snd a2))) s')
      as [Hf (added & Hc & ->)].
    split; [exact Hf|]. eexists. split; [exact Hc|]. right. eauto.
  - apply (extends_quiet ContextOnly Hnil (quiet_ret tt)).
Qed.

Lemma handleTextMessage_effects (s : Session DS) (id text : string) :
  (forall history, rejects history (SendItem User text) = false) ->
  frames (fst (handleTextMessage rejects (Some (UserMessage id text)) s))
  = frames s
  /\ exists added,
       calls (fst (enrichWithSculptureData rejects text s))
       = calls s ++ added
       /\ ContextOnly added
       /\ calls (fst (handleTextMessage rejects (Some (UserMessage id text)) s))
          = calls s
            ++ (if match dataService s with Some _ => true | None => false end
                   && truthy text
                then added else [])
            ++ [SendItem User text; GenerateResponse].
Proof.
  intros Huser.
  pose proof (enrich_returns text s) as Hret.
  destruct (enrich_extends text s) as [Hf (added & Hc & Hadded)].
  unfold handleTextMessage, tryCatch, bind, hasDataService. simpl.
  destruct (match dataService s with Some _ => true | None => false end
            && truthy text).
  - destruct (enrichWithSculptureData rejects text s) as [s1 o].
    simpl in *. subst o. unfold clientCall. rewrite Huser. simpl.
    destruct (rejects (calls s1 ++ [SendItem User text]) GenerateResponse);
      simpl; (split; [exact Hf|]); exists added;
      rewrite Hc, <- !app_assoc; auto.
  - unfold ret, clientCall. rewrite Huser. simpl.
    destruct (rejects (calls s ++ [SendItem User text]) GenerateResponse);
      simpl; (split; [reflexivity|]); exists added;
      rewrite <- !app_assoc; auto.
Qed.

Lemma handleMessage_session (message : Inbound) (s : Session DS) :
  snd (handleMessage rejects message s) = Returned tt
  /\ fst (handleMessage rejects message s)
     = fst (match message with
            | InBinary bytes => handleBinaryMessage rejects bytes
            | InText parsed => handleTextMessage rejects parsed
            end s).
Proof.
  unfold handleMessage, tryCatch.
  destruct (match message with
            | InBinary bytes => handleBinaryMessage rejects bytes
            | InText parsed => handleTextMessage rejects parsed
            end s) as [s1 [[]|e]]; split; reflexivity.
Qed.

(** C8. Whatever the data service does (its lookups may throw) and
    whatever the remote session answers to the context item,
    enrichment returns normally; the handler of a user message then
    sends no frame to the client, makes after at most one system-role
    context item the submission of the user's item and, the remote
    session taking that item, the generation request; and
    [handleMessage] returns normally. *)
Theorem enrichment_errors_swallowed (s : Session DS) (id text : string) :
  (forall history, rejects history (SendItem User text) = false) ->
  snd (enrichWithSculptureData rejects text s) = Returned tt
  /\ frames (fst (handleTextMessage rejects (Some (UserMessage id text)) s))
     = frames s
  /\ (exists added,
         ContextOnly added
         /\ calls (fst (handleTextMessage rejects (Some (UserMessage id text)) s))
            = calls s ++ added ++ [SendItem User text; GenerateResponse])
  /\ snd (handleMessage rejects (InText (Some (UserMessage id text))) s)
     = Returned tt
  /\ frames (fst (handleMessage rejects (InText (Some (UserMessage id text))) s))
     = frames s.
Proof.
  intros Huser.
  destruct (handleTextMessage_effects s id Huser)
    as [Hf (added & _ & Hadded & Hc)].
  destruct (handleMessage_session (InText (Some (UserMessage id text))) s)
    as [Hret Hfst].
  split; [apply enrich_returns|]. split; [exact Hf|]. split.
  - exists (if match dataService s with Some _ => true | None => false end
               && truthy text
            then added else []).
    split; [|exact Hc].
    destruct (_ && _); [exact Hadded|left; reflexivity].
  - split; [exact Hret|]. rewrite Hfst. exact Hf.
Qed.

(** *** Text content *)

Lemma forAwaitText_streamOf (contentId : string) (chunks : list string)
      (s : Session DS) :
  forAwaitText contentId (streamOf chunks) s
  = (mkSession (dataService s) (calls s)
               (frames s ++ Spec.deltaFrames contentId chunks),
     Returned tt).
Proof.
  revert s. induction chunks as [|text rest IH]; intros s; simpl.
  - destruct s. unfold ret. simpl. rewrite app_nil_r. reflexivity.
  - unfold bind, send. simpl. rewrite IH. simpl.
    rewrite <- app_assoc. reflexivity.
Qed.

(** C3. For a text content item whose stream delivers the chunks
    [chunks] and ends, the coordinator sends to the client one
    [text_delta] frame per chunk, in chunk order and all with the
    item's id, then one [text_done] frame with that id, and nothing
    else; the handler returns normally. *)
Theorem text_content_frames (s : Session DS) (itemId : string)
        (contentIndex : nat) (chunks : list string) :
  handleTextContent (mkText itemId contentIndex (streamOf chunks)) s
  = (mkSession (dataService s) (calls s)
               (frames s
                ++ Spec.deltaFrames (contentIdOf itemId contentIndex) chunks
                ++ [TextFrame (TextDone (contentIdOf itemId contentIndex))]),
     Returned tt)
  /\ length (Spec.deltaFrames (contentIdOf itemId contentIndex) chunks)
     = length chunks.
Proof.
  split.
  - unfold handleTextContent, tryCatch, bind. simpl.
    rewrite forAwaitText_streamOf. unfold send. simpl.
    rewrite <- app_assoc. reflexivity.
  - unfold Spec.deltaFrames. apply length_map.
Qed.

(** *** Audio content *)

Lemma forAwaitAudio_streamOf (chunks : list TypedArray) (s : Session DS) :
  forAwaitAudio (streamOf chunks) s
  = (mkSession (dataService s) (calls s)
               (frames s ++ map (fun c => BinaryFrame (bufferToSend c)) chunks),
     Returned tt).
Proof.
  revert s. induction chunks as [|chunk rest IH]; intros s; simpl.
  - destruct s. unfold ret. simpl. rewrite app_nil_r. reflexivity.
  - unfold bind, sendBinary. simpl. rewrite IH. simpl.
    rewrite <- app_assoc. reflexivity.
Qed.

Lemma binaryPayloads_app (l1 l2 : list Frame) :
  Spec.binaryPayloads (l1 ++ l2)
  = Spec.binaryPayloads l1 ++ Spec.binaryPayloads l2.
Proof. unfold Spec.binaryPayloads. apply flat_map_app. Qed.

Lemma binaryPayloads_binary (chunks : list TypedArray) :
  Spec.binaryPayloads (map (fun c => BinaryFrame (bufferToSend c)) chunks)
  = map bufferToSend chunks.
Proof.
  induction chunks as [|chunk rest IH]; simpl; [reflexivity|].
  f_equal. exact IH.
Qed.

Lemma forAwaitText_no_binary (contentId : string) (chunks : Stream string)
      (s : Session DS) :
  Spec.binaryPayloads (frames (fst (forAwaitText contentId chunks s)))
  = Spec.binaryPayloads (frames s).
Proof.
  revert s. induction chunks as [| |text rest IH]; intros s; simpl;
    try reflexivity.
  unfold bind, send. simpl. rewrite IH. simpl.
  rewrite binaryPayloads_app. simpl. apply app_nil_r.
Qed.

Lemma transcript_no_binary (content : RTAudioContent) :
  Spec.binaryPayloads (taskFrames (DS := DS) (handleAudioTranscript content))
  = [].
Proof.
  unfold taskFrames, handleAudioTranscript, bind.
  pose proof (forAwaitText_no_binary
                (contentIdOf (itemId content) (contentIndex content))
                (transcriptChunks content) (mkSession (@None DS) [] [])) as Hno.
  destruct (forAwaitText _ _ _) as [s1 [[]|e]]; simpl in *.
  - unfold send. simpl. rewrite binaryPayloads_app, Hno. reflexivity.
  - exact Hno.
Qed.

Lemma interleave_binary (l1 l2 l : list Frame) :
  Interleave l1 l2 l ->
  Spec.binaryPayloads l2 = [] ->
  Spec.binaryPayloads l = Spec.binaryPayloads l1.
Proof.
  induction 1 as [|a l1 l2 l Hi IH|a l1 l2 l Hi IH]; intros Hno.
  - reflexivity.
  - simpl. rewrite IH by exact Hno. reflexivity.
  - simpl in *. apply app_eq_nil in Hno. destruct Hno as [Ha Hl2].
    rewrite Ha, IH by exact Hl2. reflexivity.
Qed.

Lemma interleave_append {A} (l1 l2 : list A) : Interleave l1 l2 (l1 ++ l2).
Proof.
  induction l1 as [|a l1 IH]; simpl.
  - induction l2 as [|b l2 IH2]; constructor; assumption.
  - constructor. exact IH.
Qed.

Lemma audio_run_exists (content : RTAudioContent) (s : Session DS) :
  exists s' out, handleAudioContent content s s' out.
Proof.
  eexists. eexists. apply audio_run. apply interleave_append.
Qed.

(** Every run sends, among its frames, one binary frame per chunk
    with what [bufferToSend] makes of the chunk, in chunk order. *)
Lemma audio_run_payloads (s s' : Session DS) (itemId : string)
      (contentIndex : nat) (chunks : list TypedArray)
      (transcript : Stream string) (out : Outcome unit) :
  handleAudioContent (mkAudio itemId contentIndex (streamOf chunks) transcript)
                     s s' out ->
  exists sent,
    frames s' = frames s ++ sent
    /\ Spec.binaryPayloads sent = map bufferToSend chunks.
Proof.
  intros Hrun. inversion Hrun as [sent Hsent Hs' Hout]. subst.
  exists sent. split; [reflexivity|].
  rewrite (interleave_binary Hsent (transcript_no_binary _)).
  unfold taskFrames, handleAudioChunks. simpl.
  rewrite forAwaitAudio_streamOf. simpl.
  apply binaryPayloads_binary.
Qed.

Lemma spanning_chunk_sent_whole (chunk : TypedArray) :
  Spec.SpansBuffer chunk -> bufferToSend chunk = arrayBytes chunk.
Proof.
  unfold Spec.SpansBuffer, bufferToSend, arrayBytes.
  intros (-> & -> & ->). simpl. symmetry. apply firstn_all.
Qed.

(** For an audio content item whose stream delivers the chunks [chunks]
    and ends, every run of the handler sends exactly one binary frame
    per chunk, in chunk order, whatever the transcript frames in
    between; the frame of a chunk that spans the whole of its
    [ArrayBuffer] carries exactly the chunk's bytes. *)
Theorem audio_chunks_forwarded (s : Session DS) (itemId : string)
        (contentIndex : nat) (chunks : list TypedArray)
        (transcript : Stream string) :
  (exists s' out,
      handleAudioContent
        (mkAudio itemId contentIndex (streamOf chunks) transcript) s s' out)
  /\ forall s' out,
      handleAudioContent
        (mkAudio itemId contentIndex (streamOf chunks) transcript) s s' out ->
      exists sent,
        frames s' = frames s ++ sent
        /\ Forall2 (fun chunk payload =>
                      Spec.SpansBuffer chunk -> payload = arrayBytes chunk)
                   chunks (Spec.binaryPayloads sent).
Proof.
  split; [apply audio_run_exists|].
  intros s' out Hrun.
  apply audio_run_payloads in Hrun.
  destruct Hrun as (sent & Hframes & Hpayloads).
  exists sent. split; [exact Hframes|]. rewrite Hpayloads.
  clear. induction chunks as [|chunk rest IH]; simpl; constructor.
  - intros Hspan. apply spanning_chunk_sent_whole. exact Hspan.
  - exact IH.
Qed.

(** *** The mention loops on a service whose lookups return *)

Section Loops.

Context {R : Type}.
Variable lookup : string -> DS -> DS * Outcome (list R).
Variable format : list R -> string.
Variable results : string -> list R.
Variable Inv : DS -> Prop.

Hypothesis lookup_returns :
  forall term ds, Inv ds ->
    exists ds', lookup term ds = (ds', Returned (results term)) /\ Inv ds'.

Lemma forMentions_hits (mentions : list string) (vars : bool * string)
      (cs : list RemoteCall) (fs : list Frame) (ds : DS) :
  Inv ds ->
  exists ds',
    Inv ds'
    /\ forMentions lookup format mentions vars (mkSession (Some ds) cs fs)
       = (mkSession (Some ds') cs fs, Returned (Spec.afterLoop format results mentions vars)).
Proof.
  revert ds. unfold Spec.afterLoop.
  induction mentions as [|term rest IH]; intros ds Hinv; simpl.
  - exists ds. split; [exact Hinv|reflexivity].
  - unfold bind, onDataService. simpl.
    destruct (lookup_returns term Hinv) as (ds1 & -> & Hinv1). simpl.
    unfold Spec.whenNonEmpty at 1.
    destruct (nonEmpty (results term)); simpl.
    + exists ds1. split; [exact Hinv1|reflexivity].
    + apply IH. exact Hinv1.
Qed.

Lemma guarded_forMentions_hits (mentions : list string)
      (vars : bool * string) (cs : list RemoteCall) (fs : list Frame)
      (ds : DS) :
  Inv ds ->
  exists ds',
    Inv ds'
    /\ (if negb (fst vars) && nonEmpty mentions
        then forMentions lookup format mentions vars
        else ret vars) (mkSession (Some ds) cs fs)
       = (mkSession (Some ds') cs fs,
          Returned (if fst vars then vars
                    else Spec.afterLoop format results mentions vars)).
Proof.
  intros Hinv. destruct (fst vars); simpl.
  - exists ds. split; [exact Hinv|reflexivity].
  - destruct mentions as [|term rest].
    + exists ds. split; [exact Hinv|reflexivity].
    + apply forMentions_hits. exact Hinv.
Qed.

End Loops.

End Generic.

(** *** Formatting never gives the empty string *)

Lemma truthy_append (s t : string) :
  truthy s = true -> truthy (String.append s t) = true.
Proof. destruct s; simpl; [discriminate|reflexivity]. Qed.

Lemma fold_truthy {X} (f : string -> X -> string) :
  (forall info x, truthy info = true -> truthy (f info x) = true) ->
  forall l init, truthy init = true -> truthy (fold_left f l init) = true.
Proof.
  intros Hf l. induction l as [|x l IH]; intros init Hinit; simpl.
  - exact Hinit.
  - apply IH, Hf, Hinit.
Qed.

Ltac format_truthy :=
  apply fold_truthy;
  [ intros info x Hinfo; try destruct x;
    repeat apply truthy_append; exact Hinfo
  | reflexivity ].

Lemma formatSculptureInfo_truthy l : truthy (formatSculptureInfo l) = true.
Proof. unfold formatSculptureInfo. format_truthy. Qed.

Lemma formatArtistSculptureInfo_truthy l :
  truthy (formatArtistSculptureInfo l) = true.
Proof. unfold formatArtistSculptureInfo. format_truthy. Qed.

Lemma formatMaterialSculptureInfo_truthy l :
  truthy (formatMaterialSculptureInfo l) = true.
Proof. unfold formatMaterialSculptureInfo. format_truthy. Qed.

Lemma formatPeriodSculptureInfo_truthy l :
  truthy (formatPeriodSculptureInfo l) = true.
Proof. unfold formatPeriodSculptureInfo. format_truthy. Qed.

(** *** First hits *)

Lemma firstHit_some (yield : string -> option string) (terms : list string)
      (hit : string * string) :
  Spec.firstHit yield terms = Some hit ->
  exists before after,
    terms = before ++ fst hit :: after
    /\ (forall t, In t before -> yield t = None)
    /\ yield (fst hit) = Some (snd hit).
Proof.
  induction terms as [|term rest IH]; simpl; [discriminate|].
  destruct (yield term) as [ctx|] eqn:Hterm.
  - intros [= <-]. exists [], rest. simpl. split; [reflexivity|].
    split; [intros t []|exact Hterm].
  - intros Hrest. destruct (IH Hrest) as (before & after & -> & Hnone & Hhit).
    exists (term :: before), after. split; [reflexivity|].
    split; [|exact Hhit].
    intros t [<-|Hin]; [exact Hterm|apply Hnone, Hin].
Qed.

Lemma firstHit_none (yield : string -> option string) (terms : list string) :
  Spec.firstHit yield terms = None ->
  forall t, In t terms -> yield t = None.
Proof.
  induction terms as [|term rest IH]; simpl; [intros _ t []|].
  destruct (yield term) eqn:Hterm; [discriminate|].
  intros Hrest t [<-|Hin]; [exact Hterm|apply IH; assumption].
Qed.

Lemma first_split_unique (yield : string -> option string)
      (before before' after after' : list string) (t t' : string) :
  before ++ t :: after = before' ++ t' :: after' ->
  (forall x, In x before -> yield x = None) ->
  (forall x, In x before' -> yield x = None) ->
  yield t <> None -> yield t' <> None ->
  t = t'.
Proof.
  revert before'. induction before as [|b before IH];
    intros [|b' before'] Heq Hnone Hnone' Ht Ht'; simpl in *.
  - congruence.
  - injection Heq as -> _. exfalso. apply Ht, Hnone'. auto.
  - injection Heq as -> _. exfalso. apply Ht', Hnone. auto.
  - injection Heq as _ Heq. apply (IH before'); auto.
Qed.

(** *** Enrichment over the JSON data service *)

Lemma snapshot_ensureData (js : JsonDataService.t) :
  JsonDataService.snapshot (JsonDataService.ensureData js)
  = JsonDataService.snapshot js.
Proof. destruct js as [[d|] [| |d'|] n]; reflexivity. Qed.

Ltac lookup_fst :=
  intros;
  match goal with
  | |- fst (?f _ ?js) = _ =>
      unfold f; destruct (JsonDataService.data (JsonDataService.ensureData js));
      reflexivity
  end.

Ltac lookup_snd :=
  intros js js' term Hsnap; unfold JsonDataService.snapshot in Hsnap;
  match goal with
  | |- snd (?f _ _) = _ => unfold f
  end;
  rewrite Hsnap;
  destruct (JsonDataService.data (JsonDataService.ensureData js'));
  reflexivity.

Lemma findSculptureByName_fst term js :
  fst (JsonDataService.findSculptureByName term js)
  = JsonDataService.ensureData js.
Proof. lookup_fst. Qed.

Lemma getSculpturesByArtist_fst term js :
  fst (JsonDataService.getSculpturesByArtist term js)
  = JsonDataService.ensureData js.
Proof. lookup_fst. Qed.

Lemma getSculpturesByMaterial_fst term js :
  fst (JsonDataService.getSculpturesByMaterial term js)
  = JsonDataService.ensureData js.
Proof. lookup_fst. Qed.

Lemma getSculpturesByPeriod_fst term js :
  fst (JsonDataService.getSculpturesByPeriod term js)
  = JsonDataService.ensureData js.
Proof. lookup_fst. Qed.

Lemma findSculptureByName_snd :
  forall js js' term,
    JsonDataService.snapshot js = JsonDataService.snapshot js' ->
    snd (JsonDataService.findSculptureByName term js)
    = snd (JsonDataService.findSculptureByName term js').
Proof. lookup_snd. Qed.

Lemma getSculpturesByArtist_snd :
  forall js js' term,
    JsonDataService.snapshot js = JsonDataService.snapshot js' ->
    snd (JsonDataService.getSculpturesByArtist term js)
    = snd (JsonDataService.getSculpturesByArtist term js').
Proof. lookup_snd. Qed.

Lemma getSculpturesByMaterial_snd :
  forall js js' term,
    JsonDataService.snapshot js = JsonDataService.snapshot js' ->
    snd (JsonDataService.getSculpturesByMaterial term js)
    = snd (JsonDataService.getSculpturesByMaterial term js').
Proof. lookup_snd. Qed.

Lemma getSculpturesByPeriod_snd :
  forall js js' term,
    JsonDataService.snapshot js = JsonDataService.snapshot js' ->
    snd (JsonDataService.getSculpturesByPeriod term js)
    = snd (JsonDataService.getSculpturesByPeriod term js').
Proof. lookup_snd. Qed.

Section Json.

Variable rejects : list RemoteCall -> RemoteCall -> bool.
Variable js : JsonDataService.t.

Ltac lookup_returns fst_lemma snd_lemma :=
  intros term ds Hsnap; unfold Spec.SameSnapshot in *;
  eexists; split;
  [ simpl; unfold returning; rewrite (snd_lemma _ _ term Hsnap); reflexivity
  | rewrite fst_lemma, snapshot_ensureData; exact Hsnap ].

Lemma json_findSculptureByName_returns :
  forall term ds, Spec.SameSnapshot js ds ->
    exists ds',
      findSculptureByName term ds
      = (ds', Returned (snd (JsonDataService.findSculptureByName term js)))
      /\ Spec.SameSnapshot js ds'.
Proof.
  lookup_returns findSculptureByName_fst findSculptureByName_snd.
Qed.

Lemma json_getSculpturesByArtist_returns :
  forall term ds, Spec.SameSnapshot js ds ->
    exists ds',
      getSculpturesByArtist term ds
      = (ds', Returned (snd (JsonDataService.getSculpturesByArtist term js)))
      /\ Spec.SameSnapshot js ds'.
Proof.
  lookup_returns getSculpturesByArtist_fst getSculpturesByArtist_snd.
Qed.

Lemma json_getSculpturesByMaterial_returns :
  forall term ds, Spec.SameSnapshot js ds ->
    exists ds',
      getSculpturesByMaterial term ds
      = (ds', Returned (snd (JsonDataService.getSculpturesByMaterial term js)))
      /\ Spec.SameSnapshot js ds'.
Proof.
  lookup_returns getSculpturesByMaterial_fst getSculpturesByMaterial_snd.
Qed.

Lemma json_getSculpturesByPeriod_returns :
  forall term ds, Spec.SameSnapshot js ds ->
    exists ds',
      getSculpturesByPeriod term ds
      = (ds', Returned (snd (JsonDataService.getSculpturesByPeriod term js)))
      /\ Spec.SameSnapshot js ds'.
Proof.
  lookup_returns getSculpturesByPeriod_fst getSculpturesByPeriod_snd.
Qed.

Lemma final_vars (text : string) :
  let v1 :=
    Spec.afterLoop formatSculptureInfo
      (fun t => snd (JsonDataService.findSculptureByName t js))
      (extractSculptureTerms text) (false, EmptyString) in
  let v2 :=
    if fst v1 then v1
    else Spec.afterLoop formatArtistSculptureInfo
           (fun t => snd (JsonDataService.getSculpturesByArtist t js))
           (extractArtistTerms text) v1 in
  let v3 :=
    if fst v2 then v2
    else Spec.afterLoop formatMaterialSculptureInfo
           (fun t => snd (JsonDataService.getSculpturesByMaterial t js))
           (extractMaterialTerms text) v2 in
  let v4 :=
    if fst v3 then v3
    else Spec.afterLoop formatPeriodSculptureInfo
           (fun t => snd (JsonDataService.getSculpturesByPeriod t js))
           (extractPeriodTerms text) v3 in
  v4 = match Spec.selectedContext js text with
       | Some ctx => (true, ctx)
       | None => (false, EmptyString)
       end.
Proof.
  unfold Spec.afterLoop, Spec.selectedContext, Spec.selected, Spec.hitIn,
    Spec.tagged.
  unfold Spec.contextOf, Spec.mentions. cbv zeta.
  destruct (Spec.firstHit _ (extractSculptureTerms text)) as [h1|]; simpl;
    [reflexivity|].
  destruct (Spec.firstHit _ (extractArtistTerms text)) as [h2|]; simpl;
    [reflexivity|].
  destruct (Spec.firstHit _ (extractMaterialTerms text)) as [h3|]; simpl;
    [reflexivity|].
  destruct (Spec.firstHit _ (extractPeriodTerms text)) as [h4|]; reflexivity.
Qed.

Lemma contextOf_truthy (c : Spec.Category) (term ctx : string) :
  Spec.contextOf c js term = Some ctx -> truthy ctx = true.
Proof.
  destruct c; unfold Spec.contextOf, Spec.whenNonEmpty;
    destruct (nonEmpty _); intros [= <-].
  - apply formatSculptureInfo_truthy.
  - apply formatArtistSculptureInfo_truthy.
  - apply formatMaterialSculptureInfo_truthy.
  - apply formatPeriodSculptureInfo_truthy.
Qed.

Lemma hitIn_selects (c : Spec.Category) (text : string)
      (hit : string * string) :
  (forall c', Spec.priority c' < Spec.priority c ->
              Spec.hitIn c' js text = None) ->
  Spec.hitIn c js text = Some hit ->
  Spec.Selects js text c (fst hit) (snd hit).
Proof.
  intros Hhigher Hhit. unfold Spec.hitIn in *.
  destruct (firstHit_some _ _ Hhit) as (before & after & Hsplit & Hnone & Hyield).
  split; [|split].
  - intros c' t Hlt Hin. apply (firstHit_none _ _ (Hhigher c' Hlt)). exact Hin.
  - exists before, after. auto.
  - exact Hyield.
Qed.

Lemma selected_sound (text : string) (c : Spec.Category) (term ctx : string) :
  Spec.selected js text = Some (c, term, ctx) ->
  Spec.Selects js text c term ctx.
Proof.
  unfold Spec.selected, Spec.tagged.
  destruct (Spec.hitIn Spec.BySculptureName js text) as [h1|] eqn:H1.
  { intros [= <- <- <-]. apply hitIn_selects; [|exact H1].
    intros [] Hlt; simpl in Hlt; lia. }
  destruct (Spec.hitIn Spec.ByArtist js text) as [h2|] eqn:H2.
  { intros [= <- <- <-]. apply hitIn_selects; [|exact H2].
    intros [] Hlt; simpl in Hlt; try lia; assumption. }
  destruct (Spec.hitIn Spec.ByMaterial js text) as [h3|] eqn:H3.
  { intros [= <- <- <-]. apply hitIn_selects; [|exact H3].
    intros [] Hlt; simpl in Hlt; try lia; assumption. }
  destruct (Spec.hitIn Spec.ByPeriod js text) as [h4|] eqn:H4; simpl;
    [|discriminate].
  intros [= <- <- <-]. apply hitIn_selects; [|exact H4].
  intros [] Hlt; simpl in Hlt; try lia; assumption.
Qed.

Lemma selected_none (text : string) :
  Spec.selected js text = None ->
  forall c t, In t (Spec.mentions c text) -> Spec.contextOf c js t = None.
Proof.
  unfold Spec.selected.
  destruct (Spec.hitIn Spec.BySculptureName js text) eqn:H1; [discriminate|].
  destruct (Spec.hitIn Spec.ByArtist js text) eqn:H2; [discriminate|].
  destruct (Spec.hitIn Spec.ByMaterial js text) eqn:H3; [discriminate|].
  destruct (Spec.hitIn Spec.ByPeriod js text) eqn:H4; [discriminate|].
  intros _ c t Hin. destruct c; eapply firstHit_none; eauto.
Qed.

Lemma priority_injective (c c' : Spec.Category) :
  Spec.priority c = Spec.priority c' -> c = c'.
Proof. destruct c, c'; simpl; intros Heq; try reflexivity; discriminate. Qed.

Lemma Selects_unique (text : string) (c c' : Spec.Category)
      (term term' ctx ctx' : string) :
  Spec.Selects js text c term ctx ->
  Spec.Selects js text c' term' ctx' ->
  c' = c /\ term' = term /\ ctx' = ctx.
Proof.
  intros (Hhigher & (before & after & Hsplit & Hnone) & Hyield)
         (Hhigher' & (before' & after' & Hsplit' & Hnone') & Hyield').
  assert (Hin : In term (Spec.mentions c text))
    by (rewrite Hsplit; apply in_elt).
  assert (Hin' : In term' (Spec.mentions c' text))
    by (rewrite Hsplit'; apply in_elt).
  destruct (Nat.lt_total (Spec.priority c) (Spec.priority c'))
    as [Hlt|[Heq|Hgt]].
  - rewrite (Hhigher' c term Hlt Hin) in Hyield. discriminate.
  - apply priority_injective in Heq. subst c'.
    assert (term = term').
    { apply (first_split_unique (Spec.contextOf c js) before before'
                                after after'); try assumption; congruence. }
    subst term'. split; [reflexivity|]. split; [reflexivity|]. congruence.
  - rewrite (Hhigher c' term' Hgt Hin') in Hyield'. discriminate.
Qed.

Lemma selectedContext_truthy (text ctx : string) :
  Spec.selectedContext js text = Some ctx -> truthy ctx = true.
Proof.
  unfold Spec.selectedContext.
  destruct (Spec.selected js text) as [[[c term] ctx']|] eqn:Hsel;
    simpl; [|discriminate].
  intros [= <-]. apply selected_sound in Hsel.
  destruct Hsel as (_ & _ & Hyield).
  apply (contextOf_truthy _ _ Hyield).
Qed.

Lemma enrich_json (text : string) (cs : list RemoteCall) (fs : list Frame)
      (ds : JsonDataService.t) :
  Spec.SameSnapshot js ds ->
  exists ds',
    Spec.SameSnapshot js ds'
    /\ enrichWithSculptureData rejects text (mkSession (Some ds) cs fs)
       = (mkSession (Some ds')
                    (cs ++ Spec.contextItems (Spec.selectedContext js text)) fs,
          Returned tt).
Proof.
  intros Hsnap.
  unfold enrichWithSculptureData. cbn [dataService]. unfold tryCatch, bind.
  destruct (guarded_forMentions_hits
              findSculptureByName formatSculptureInfo _ _
              json_findSculptureByName_returns
              (extractSculptureTerms text) (false, EmptyString) cs fs ds Hsnap)
    as (ds1 & Hsnap1 & E1).
  cbn [fst negb andb] in E1. rewrite E1. clear E1. cbv beta iota.
  match goal with
  | |- context [forMentions _ _ (extractArtistTerms text) ?v] =>
      destruct (guarded_forMentions_hits
                  getSculpturesByArtist formatArtistSculptureInfo _ _
                  json_getSculpturesByArtist_returns
                  (extractArtistTerms text) v cs fs ds1 Hsnap1)
        as (ds2 & Hsnap2 & E2)
  end.
  rewrite E2. clear E2. cbv beta iota.
  match goal with
  | |- context [forMentions _ _ (extractMaterialTerms text) ?v] =>
      destruct (guarded_forMentions_hits
                  getSculpturesByMaterial formatMaterialSculptureInfo _ _
                  json_getSculpturesByMaterial_returns
                  (extractMaterialTerms text) v cs fs ds2 Hsnap2)
        as (ds3 & Hsnap3 & E3)
  end.
  rewrite E3. clear E3. cbv beta iota.
  match goal with
  | |- context [forMentions _ _ (extractPeriodTerms text) ?v] =>
      destruct (guarded_forMentions_hits
                  getSculpturesByPeriod formatPeriodSculptureInfo _ _
                  json_getSculpturesByPeriod_returns
                  (extractPeriodTerms text) v cs fs ds3 Hsnap3)
        as (ds4 & Hsnap4 & E4)
  end.
  rewrite E4. clear E4. cbv beta iota.
  pose proof (final_vars text) as Hvars. cbv zeta in Hvars. rewrite Hvars.
  exists ds4. split; [exact Hsnap4|].
  destruct (Spec.selectedContext js text) as [ctx|] eqn:Hsel;
    cbn [fst snd andb Spec.contextItems].
  - rewrite (selectedContext_truthy _ Hsel).
    unfold clientCall. cbn [dataService calls frames].
    destruct (rejects cs _); reflexivity.
  - unfold ret. rewrite app_nil_r. reflexivity.
Qed.

(** The calls enrichment makes on a session that holds [js]. *)
Lemma enrich_json_session (text : string) (s : Session JsonDataService.t) :
  dataService s = Some js ->
  snd (enrichWithSculptureData rejects text s) = Returned tt
  /\ frames (fst (enrichWithSculptureData rejects text s)) = frames s
  /\ calls (fst (enrichWithSculptureData rejects text s))
     = calls s ++ Spec.contextItems (Spec.selectedContext js text).
Proof.
  destruct s as [ds cs fs]. simpl. intros ->.
  destruct (enrich_json text cs fs (eq_refl : Spec.SameSnapshot js js))
    as (ds' & _ & ->).
  repeat split.
Qed.

(** C1. On a session that holds the store [js], enrichment returns
    normally, sends no frame, and either injects exactly one context,
    the one that term [term] of category [c] yields, where no
    candidate term of a category of higher priority (sculpture name,
    then artist, then material, then period) yields anything, no
    candidate of [c] before [term] in extraction order yields
    anything, and [c] and [term] are the only category and term so
    placed; or no candidate term of any category yields anything and
    nothing is injected. *)
Theorem enrichment_selects_first_hit (text : string)
        (s : Session JsonDataService.t) :
  dataService s = Some js ->
  snd (enrichWithSculptureData rejects text s) = Returned tt
  /\ frames (fst (enrichWithSculptureData rejects text s)) = frames s
  /\ ((exists c term ctx,
          Spec.Selects js text c term ctx
          /\ (forall c' term' ctx',
                 Spec.Selects js text c' term' ctx' ->
                 c' = c /\ term' = term /\ ctx' = ctx)
          /\ calls (fst (enrichWithSculptureData rejects text s))
             = calls s
               ++ [SendItem System (String.append contextPrefix ctx)])
      \/ ((forall c t, In t (Spec.mentions c text) ->
                       Spec.contextOf c js t = None)
          /\ calls (fst (enrichWithSculptureData rejects text s)) = calls s)).
Proof.
  intros Hds.
  destruct (enrich_json_session text s Hds) as (Hret & Hframes & Hcalls).
  split; [exact Hret|]. split; [exact Hframes|].
  rewrite Hcalls. unfold Spec.selectedContext.
  destruct (Spec.selected js text) as [[[c term] ctx]|] eqn:Hsel; simpl.
  - left. exists c, term, ctx.
    pose proof (selected_sound _ Hsel) as Hselects.
    split; [exact Hselects|]. split; [|reflexivity].
    intros c' term' ctx' Hother. exact (Selects_unique Hselects Hother).
  - right. split; [exact (selected_none _ Hsel)|apply app_nil_r].
Qed.


End Json.

Section Ordering.

Variable rejects : list RemoteCall -> RemoteCall -> bool.

Lemma handleTextMessage_json_calls (id text : string)
      (s : Session JsonDataService.t) :
  (forall history, rejects history (SendItem User text) = false) ->
  calls (fst (handleTextMessage rejects (Some (UserMessage id text)) s))
  = calls s ++ Spec.contextItems (Spec.contextFor s text)
            ++ [SendItem User text; GenerateResponse].
Proof.
  intros Huser.
  destruct (@handleTextMessage_effects _ _ rejects s id text Huser)
    as [_ (added & Henrich & _ & Hcalls)].
  rewrite Hcalls. f_equal. f_equal. unfold Spec.contextFor.
  destruct (dataService s) as [ds|] eqn:Hds; [|reflexivity].
  cbn [andb]. unfold truthy.
  destruct (String.eqb_spec text EmptyString) as [->|Hne]; simpl.
  - reflexivity.
  - destruct (enrich_json_session rejects text s Hds) as (_ & _ & Hjson).
    rewrite Hjson in Henrich. apply app_inv_head in Henrich.
    symmetry. exact Henrich.
Qed.

(** C2. The remote session taking the user's item, the handler of a
    user message makes exactly these calls, in this order: when
    enrichment yields a context, the submission of one system-role
    item carrying it, then the submission of the user's item, then
    the generation request; when it yields none, the submission of
    the user's item, then the generation request. *)
Theorem context_then_user_then_generation (id text : string)
        (s : Session JsonDataService.t) :
  (forall history, rejects history (SendItem User text) = false) ->
  (forall ctx,
      Spec.contextFor s text = Some ctx ->
      calls (fst (handleTextMessage rejects (Some (UserMessage id text)) s))
      = calls s
        ++ [SendItem System (String.append contextPrefix ctx);
            SendItem User text;
            GenerateResponse])
  /\ (Spec.contextFor s text = None ->
      calls (fst (handleTextMessage rejects (Some (UserMessage id text)) s))
      = calls s ++ [SendItem User text; GenerateResponse]).
Proof.
  intros Huser.
  pose proof (handleTextMessage_json_calls id s Huser) as Hall.
  split.
  - intros ctx Hctx. rewrite Hall, Hctx. reflexivity.
  - intros Hctx. rewrite Hall, Hctx. reflexivity.
Qed.

End Ordering.

(** *** The properties at work on the sample museum *)

Example broken_lookup_throws :
  snd (forMentions (findSculptureByName (DataService := Sample.broken))
                   formatSculptureInfo
                   ["David"%string] (false, EmptyString)
                   (mkSession (Some tt) [] []))
  = Thrown LookupError.
Proof. reflexivity. Qed.

Example tell_me_about_David :
  handleTextMessage Sample.accepting
                    (Some (UserMessage "1" "Tell me about David"))
                    (Sample.session Sample.loaded)
  = (mkSession (Some Sample.loaded)
               [SendItem System
                         (String.append contextPrefix
                                        (formatSculptureInfo [Sample.david]));
                SendItem User "Tell me about David";
                GenerateResponse]
               [],
     Returned tt).
Proof. vm_compute. reflexivity. Qed.

Example whats_for_lunch :
  handleTextMessage Sample.accepting
                    (Some (UserMessage "2" "What's for lunch?"))
                    (Sample.session Sample.loaded)
  = (mkSession (Some Sample.loaded)
               [SendItem User "What's for lunch?"; GenerateResponse] [],
     Returned tt).
Proof. vm_compute. reflexivity. Qed.

Example bronze_by_rodin_is_by_artist :
  Spec.selected Sample.loaded "a bronze by Rodin"
  = Some (Spec.ByArtist, "Rodin"%string,
          formatArtistSculptureInfo [(Sample.thinker, Sample.rodin)]).
Proof. vm_compute. reflexivity. Qed.

Example three_chunks :
  frames (fst (handleTextContent
                 (mkText "item_7" 0 (streamOf ["Mi"; "chel"; "angelo"]%string))
                 Sample.blank))
  = [TextFrame (TextDelta "item_7-0" "Mi");
     TextFrame (TextDelta "item_7-0" "chel");
     TextFrame (TextDelta "item_7-0" "angelo");
     TextFrame (TextDone "item_7-0")].
Proof. reflexivity. Qed.

Lemma enrichment_selects_first_hit_witness :
  dataService (Sample.session Sample.loaded) = Some Sample.loaded
  /\ snd (enrichWithSculptureData Sample.accepting "Tell me about David"
                                  (Sample.session Sample.loaded))
     = Returned tt
  /\ frames (fst (enrichWithSculptureData Sample.accepting "Tell me about David"
                                          (Sample.session Sample.loaded)))
     = frames (Sample.session Sample.loaded)
  /\ ((exists c term ctx,
          Spec.Selects Sample.loaded "Tell me about David" c term ctx
          /\ (forall c' term' ctx',
                 Spec.Selects Sample.loaded "Tell me about David" c' term' ctx' ->
                 c' = c /\ term' = term /\ ctx' = ctx)
          /\ calls (fst (enrichWithSculptureData
                           Sample.accepting "Tell me about David"
                           (Sample.session Sample.loaded)))
             = calls (Sample.session Sample.loaded)
               ++ [SendItem System (String.append contextPrefix ctx)])
      \/ ((forall c t, In t (Spec.mentions c "Tell me about David") ->
                       Spec.contextOf c Sample.loaded t = None)
          /\ calls (fst (enrichWithSculptureData
                           Sample.accepting "Tell me about David"
                           (Sample.session Sample.loaded)))
             = calls (Sample.session Sample.loaded))).
Proof.
  split; [reflexivity|].
  apply (enrichment_selects_first_hit
           Sample.accepting (js := Sample.loaded) "Tell me about David"
           (Sample.session Sample.loaded)).
  reflexivity.
Defined.

Lemma context_then_user_then_generation_witness :
  (forall history,
      Sample.refusingSystemItems history (SendItem User "Tell me about David")
      = false)
  /\ Spec.contextFor (Sample.session Sample.loaded) "Tell me about David"
     = Some (formatSculptureInfo [Sample.david])
  /\ calls (fst (handleTextMessage
                   Sample.refusingSystemItems
                   (Some (UserMessage "1" "Tell me about David"))
                   (Sample.session Sample.loaded)))
     = calls (Sample.session Sample.loaded)
       ++ [SendItem System
                    (String.append contextPrefix
                                   (formatSculptureInfo [Sample.david]));
           SendItem User "Tell me about David";
           GenerateResponse].
Proof.
  split; [intros history; reflexivity|].
  split; [vm_compute; reflexivity|].
  apply (proj1 (context_then_user_then_generation
                  Sample.refusingSystemItems "1" "Tell me about David"
                  (Sample.session Sample.loaded)
                  (fun history => eq_refl))).
  vm_compute. reflexivity.
Defined.

Lemma enrichment_errors_swallowed_witness :
  (forall history,
      Sample.refusingSystemItems history (SendItem User "Tell me about David")
      = false)
  /\ snd (enrichWithSculptureData (H := Sample.broken)
            Sample.refusingSystemItems "Tell me about David"
            (mkSession (Some tt) [] []))
     = Returned tt
  /\ frames (fst (handleTextMessage (H := Sample.broken)
                    Sample.refusingSystemItems
                    (Some (UserMessage "1" "Tell me about David"))
                    (mkSession (Some tt) [] [])))
     = []
  /\ (exists added,
         ContextOnly added
         /\ calls (fst (handleTextMessage (H := Sample.broken)
                          Sample.refusingSystemItems
                          (Some (UserMessage "1" "Tell me about David"))
                          (mkSession (Some tt) [] [])))
            = [] ++ added
              ++ [SendItem User "Tell me about David"; GenerateResponse])
  /\ snd (handleMessage (H := Sample.broken)
            Sample.refusingSystemItems
            (InText (Some (UserMessage "1" "Tell me about David")))
            (mkSession (Some tt) [] []))
     = Returned tt
  /\ frames (fst (handleMessage (H := Sample.broken)
                    Sample.refusingSystemItems
                    (InText (Some (UserMessage "1" "Tell me about David")))
                    (mkSession (Some tt) [] [])))
     = [].
Proof.
  split; [intros history; reflexivity|].
  apply (enrichment_errors_swallowed
           (H := Sample.broken) Sample.refusingSystemItems
           (mkSession (Some tt) [] []) "1" "Tell me about David").
  intros history. reflexivity.
Defined.

(** C9. What the code sends for an audio chunk is not always the
    chunk's bytes. For a chunk on a buffer that is not an [ArrayBuffer],
    every run sends one binary frame of zeros, of the buffer's length;
    for a chunk that is a window on a larger [ArrayBuffer], every run
    sends the whole buffer: here four bytes for a two-byte chunk. *)
Theorem audio_chunk_bytes_not_forwarded :
  (arrayBytes Sample.shared = [x01; x02; x03; x04]
   /\ (exists s' out,
          handleAudioContent Sample.sharedContent Sample.blank s' out)
   /\ forall s' out,
        handleAudioContent Sample.sharedContent Sample.blank s' out ->
        Spec.binaryPayloads (frames s') = [[x00; x00; x00; x00]])
  /\ (arrayBytes Sample.window = [x03; x04]
      /\ (exists s' out,
             handleAudioContent Sample.windowContent Sample.blank s' out)
      /\ forall s' out,
           handleAudioContent Sample.windowContent Sample.blank s' out ->
           Spec.binaryPayloads (frames s') = [[x01; x02; x03; x04]]).
Proof.
  split; (split; [reflexivity|]); (split; [apply audio_run_exists|]);
    intros s' out Hrun.
  - unfold Sample.sharedContent in Hrun. apply audio_run_payloads in Hrun.
    destruct Hrun as (sent & Hframes & Hpayloads).
    rewrite Hframes. simpl. rewrite Hpayloads. reflexivity.
  - unfold Sample.windowContent in Hrun. apply audio_run_payloads in Hrun.
    destruct Hrun as (sent & Hframes & Hpayloads).
    rewrite Hframes. simpl. rewrite Hpayloads. reflexivity.
Qed.

End SessionFacts.

(** ** Further properties of the entity store *)

Module StringFacts.

Import Js.
Local Open Scope string_scope.

Lemma append_assoc (a b c : string) : (a ++ b) ++ c = a ++ (b ++ c).
Proof. induction a as [|x a IH]; simpl; [reflexivity|]. rewrite IH. reflexivity. Qed.

Lemma append_empty_r (a : string) : a ++ "" = a.
Proof. induction a as [|x a IH]; simpl; [reflexivity|]. rewrite IH. reflexivity. Qed.

Lemma prefix_spec (p s : string) :
  prefix p s = true <-> exists post, s = p ++ post.
Proof.
  revert p. induction s as [|b s IH]; intros [|a p]; simpl.
  - split; [exists ""; reflexivity|reflexivity].
  - split; [discriminate|]. intros [post Hpost]. discriminate.
  - split; [|reflexivity]. intros _. exists (String b s). reflexivity.
  - destruct (ascii_dec a b) as [->|Hne].
    + rewrite IH. split; intros [post Hpost]; exists post.
      * rewrite Hpost. reflexivity.
      * injection Hpost as Hpost. exact Hpost.
    + split; [discriminate|]. intros [post Hpost].
      injection Hpost as Hab _. congruence.
Qed.

Lemma includes_spec (s pat : string) :
  includes s pat = true <-> Notions.OccursIn pat s.
Proof.
  unfold Notions.OccursIn. induction s as [|c s IH]; cbn [includes].
  - rewrite orb_false_r, prefix_spec. split.
    + intros [post Hpost]. exists "", post. exact Hpost.
    + intros ([|x pre] & post & Hs); [exists post; exact Hs|discriminate].
  - rewrite orb_true_iff, prefix_spec, IH. split.
    + intros [[post Hpost]|(pre & post & Hs)].
      * exists "", post. exact Hpost.
      * exists (String c pre), post. simpl. rewrite Hs. reflexivity.
    + intros ([|x pre] & post & Hs).
      * left. exists post. exact Hs.
      * right. injection Hs as _ Hs. exists pre, post. exact Hs.
Qed.

Lemma includes_empty (s : string) : includes s "" = true.
Proof. destruct s; reflexivity. Qed.

Lemma toLowerCase_append (a b : string) :
  toLowerCase (a ++ b) = toLowerCase a ++ toLowerCase b.
Proof. induction a as [|x a IH]; simpl; [reflexivity|]. rewrite IH. reflexivity. Qed.

Lemma lower_char_idempotent (c : ascii) : lower_char (lower_char c) = lower_char c.
Proof. destruct c as [[] [] [] [] [] [] [] []]; reflexivity. Qed.

Lemma toLowerCase_idempotent (s : string) :
  toLowerCase (toLowerCase s) = toLowerCase s.
Proof.
  induction s as [|c s IH]; simpl; [reflexivity|].
  rewrite lower_char_idempotent, IH. reflexivity.
Qed.

End StringFacts.

Module StoreExtras.

Import Js JsonDataService StringFacts.

(** *** Lookups by id *)

Lemma find_by_id {E} (eid : E -> string) (l : list E) (ident : string) :
  Notions.FoundById eid l ident (find (fun e => String.eqb (eid e) ident) l).
Proof.
  destruct (find _ l) as [e|] eqn:Hfind; simpl.
  - apply find_some in Hfind. destruct Hfind as [Hin Heq].
    apply String.eqb_eq in Heq. auto.
  - intros e Hin Heq. pose proof (find_none _ _ Hfind e Hin) as Hno.
    simpl in Hno. apply String.eqb_neq in Hno. contradiction.
Qed.

Lemma find_unique_id {E} (eid : E -> string) (l : list E) :
  NoDup (map eid l) ->
  forall e, In e l -> find (fun x => String.eqb (eid x) (eid e)) l = Some e.
Proof.
  induction l as [|a l IH]; intros Hnd e Hin; [destruct Hin|].
  simpl in Hnd. inversion Hnd as [|? ? Hnotin Hnd']; subst. simpl.
  destruct (String.eqb_spec (eid a) (eid e)) as [Heq|Hne].
  - destruct Hin as [->|Hin]; [reflexivity|].
    exfalso. apply Hnotin. rewrite Heq. apply in_map. exact Hin.
  - destruct Hin as [->|Hin]; [congruence|]. apply IH; assumption.
Qed.

(** X1. On a loaded store, a lookup by id answers with an entity of the
    collection that has this id, or answers absent and then no entity
    of the collection has it; the store is left as it was. *)
Theorem getById_sound (s : t) (d : SculptureData) (ident : string) :
  data s = Some d ->
  (fst (getSculptureById ident s) = s
   /\ Notions.FoundById Sculpture.id (sculptures d) ident
                        (snd (getSculptureById ident s)))
  /\ (fst (getArtistById ident s) = s
      /\ Notions.FoundById Artist.id (artists d) ident
                           (snd (getArtistById ident s)))
  /\ (fst (getMaterialById ident s) = s
      /\ Notions.FoundById Material.id (materials d) ident
                           (snd (getMaterialById ident s)))
  /\ (fst (getPeriodById ident s) = s
      /\ Notions.FoundById Period.id (periods d) ident
                           (snd (getPeriodById ident s)))
  /\ (fst (getLocationById ident s) = s
      /\ Notions.FoundById Location.id (locations d) ident
                           (snd (getLocationById ident s))).
Proof.
  intros Hd.
  unfold getSculptureById, getArtistById, getMaterialById, getPeriodById,
    getLocationById.
  rewrite (StoreFacts.ensureData_loaded _ Hd), Hd. simpl.
  repeat split; apply find_by_id.
Qed.

Lemma getById_sound_witness :
  data Sample.loaded = Some Sample.museum
  /\ snd (getArtistById "a2" Sample.loaded) = Some Sample.rodin
  /\ Notions.FoundById Location.id (locations Sample.museum) "nowhere"
                       (snd (getLocationById "nowhere" Sample.loaded)).
Proof.
  split; [reflexivity|]. split; [reflexivity|].
  exact (proj2 (proj2 (proj2 (proj2 (proj2
           (getById_sound Sample.loaded "nowhere" eq_refl)))))).
Defined.

(** X2. On a loaded store whose ids are unique within each collection,
    looking up the id of any entity of a collection answers with that
    very entity. *)
Theorem getById_roundtrip (s : t) (d : SculptureData) :
  data s = Some d ->
  NoDup (map Sculpture.id (sculptures d)) ->
  NoDup (map Artist.id (artists d)) ->
  NoDup (map Material.id (materials d)) ->
  NoDup (map Period.id (periods d)) ->
  NoDup (map Location.id (locations d)) ->
  (forall e, In e (sculptures d) ->
             snd (getSculptureById (Sculpture.id e) s) = Some e)
  /\ (forall e, In e (artists d) ->
                snd (getArtistById (Artist.id e) s) = Some e)
  /\ (forall e, In e (materials d) ->
                snd (getMaterialById (Material.id e) s) = Some e)
  /\ (forall e, In e (periods d) ->
                snd (getPeriodById (Period.id e) s) = Some e)
  /\ (forall e, In e (locations d) ->
                snd (getLocationById (Location.id e) s) = Some e).
Proof.
  intros Hd Hs Ha Hm Hp Hl.
  unfold getSculptureById, getArtistById, getMaterialById, getPeriodById,
    getLocationById.
  rewrite (StoreFacts.ensureData_loaded _ Hd), Hd. simpl.
  repeat split; intros e Hin; apply find_unique_id; assumption.
Qed.

Lemma getById_roundtrip_witness :
  data Sample.loaded = Some Sample.museum
  /\ NoDup (map Sculpture.id (sculptures Sample.museum))
  /\ In Sample.thinker (sculptures Sample.museum)
  /\ snd (getSculptureById (Sculpture.id Sample.thinker) Sample.loaded)
     = Some Sample.thinker.
Proof.
  assert (Hnd : forall l : list string,
             nodup string_dec l = l -> NoDup l).
  { intros l Heq. rewrite <- Heq. apply NoDup_nodup. }
  split; [reflexivity|].
  split; [apply Hnd; reflexivity|].
  split; [simpl; auto|].
  apply (proj1 (getById_roundtrip Sample.loaded eq_refl
                  (Hnd _ eq_refl) (Hnd _ eq_refl) (Hnd _ eq_refl)
                  (Hnd _ eq_refl) (Hnd _ eq_refl))).
  simpl. auto.
Defined.

(** *** Lookups by name *)

Lemma opt_is_true (x : option string) (v : string) :
  opt_is x v = true <-> x = Some v.
Proof.
  destruct x as [r|]; simpl.
  - rewrite String.eqb_eq. split; congruence.
  - split; discriminate.
Qed.

Lemma nameHas_occurs (entityName query : string) :
  nameHas entityName (toLowerCase query) = true
  <-> Notions.OccursIn (toLowerCase query) (toLowerCase entityName).
Proof. unfold nameHas. apply includes_spec. Qed.

(** X3. On a loaded store, [findSculptureByName] returns exactly the
    sculptures of the store whose name, letter case set aside, has the
    query somewhere in it. *)
Theorem findSculptureByName_substring (s : t) (d : SculptureData)
        (query : string) (sc : Sculpture.t) :
  data s = Some d ->
  In sc (snd (findSculptureByName query s))
  <-> In sc (sculptures d)
      /\ Notions.OccursIn (toLowerCase query) (toLowerCase (Sculpture.name sc)).
Proof.
  intros Hd. unfold findSculptureByName.
  rewrite (StoreFacts.ensureData_loaded _ Hd), Hd. simpl.
  rewrite filter_In, nameHas_occurs. reflexivity.
Qed.

Lemma findSculptureByName_substring_witness :
  data Sample.loaded = Some Sample.museum
  /\ (In Sample.thinker (snd (findSculptureByName "THINK" Sample.loaded))
      <-> In Sample.thinker (sculptures Sample.museum)
          /\ Notions.OccursIn (toLowerCase "THINK")
                              (toLowerCase (Sculpture.name Sample.thinker))).
Proof.
  split; [reflexivity|].
  apply (findSculptureByName_substring Sample.loaded "THINK" Sample.thinker).
  reflexivity.
Defined.

(** X4. With the empty string as query, [findSculptureByName] returns
    every sculpture of a loaded store, in store order. *)
Theorem findSculptureByName_empty_query (s : t) (d : SculptureData) :
  data s = Some d ->
  findSculptureByName "" s = (s, sculptures d).
Proof.
  intros Hd. unfold findSculptureByName.
  rewrite (StoreFacts.ensureData_loaded _ Hd), Hd. simpl.
  f_equal. apply StoreFacts.filter_all. intros sc. apply includes_empty.
Qed.

Lemma findSculptureByName_empty_query_witness :
  data Sample.loaded = Some Sample.museum
  /\ findSculptureByName "" Sample.loaded
     = (Sample.loaded, sculptures Sample.museum).
Proof.
  split; [reflexivity|].
  apply (findSculptureByName_empty_query Sample.loaded). reflexivity.
Defined.

(** *** Sculptures by related entity *)

Lemma related_membership {E} (ename : E -> string)
      (refersTo : Sculpture.t -> E -> bool)
      (query : string) (d : SculptureData) (collection : list E)
      (sc : Sculpture.t) (e : E) :
  In (sc, e)
     (flat_map (fun entity =>
                  map (fun sculpture => (sculpture, entity))
                      (filter (fun sculpture => refersTo sculpture entity)
                              (sculptures d)))
               (filter (fun entity => nameHas (ename entity) (toLowerCase query))
                       collection))
  <-> In e collection
      /\ Notions.OccursIn (toLowerCase query) (toLowerCase (ename e))
      /\ In sc (sculptures d)
      /\ refersTo sc e = true.
Proof.
  rewrite in_flat_map. split.
  - intros (entity & Hentity & Hpair).
    apply filter_In in Hentity. destruct Hentity as [Hin Hname].
    apply in_map_iff in Hpair. destruct Hpair as (sculpture & [= <- <-] & Hsc).
    apply filter_In in Hsc. destruct Hsc as [Hsc Href].
    apply nameHas_occurs in Hname. auto.
  - intros (Hin & Hname & Hsc & Href). exists e. split.
    + apply filter_In. split; [exact Hin|]. apply nameHas_occurs. exact Hname.
    + apply in_map_iff. exists sc. split; [reflexivity|].
      apply filter_In. auto.
Qed.

(** X5. On a loaded store, [getSculpturesByArtist], [getSculpturesByMaterial]
    and [getSculpturesByPeriod] return exactly the pairs of a sculpture
    of the store and an entity of the collection such that the entity's
    name, letter case set aside, has the query in it and the sculpture's
    reference is the entity's id or the entity's name; a sculpture
    with no material, or no period, is in no pair. *)
Theorem related_lookups_membership (s : t) (d : SculptureData)
        (query : string) (sc : Sculpture.t) :
  data s = Some d ->
  (forall a,
      In (sc, a) (snd (getSculpturesByArtist query s))
      <-> In a (artists d)
          /\ Notions.OccursIn (toLowerCase query) (toLowerCase (Artist.name a))
          /\ In sc (sculptures d)
          /\ (Sculpture.artist sc = Artist.id a
              \/ Sculpture.artist sc = Artist.name a))
  /\ (forall m,
         In (sc, m) (snd (getSculpturesByMaterial query s))
         <-> In m (materials d)
             /\ Notions.OccursIn (toLowerCase query)
                                 (toLowerCase (Material.name m))
             /\ In sc (sculptures d)
             /\ (Sculpture.material sc = Some (Material.id m)
                 \/ Sculpture.material sc = Some (Material.name m)))
  /\ (forall p,
         In (sc, p) (snd (getSculpturesByPeriod query s))
         <-> In p (periods d)
             /\ Notions.OccursIn (toLowerCase query)
                                 (toLowerCase (Period.name p))
             /\ In sc (sculptures d)
             /\ (Sculpture.period sc = Some (Period.id p)
                 \/ Sculpture.period sc = Some (Period.name p))).
Proof.
  intros Hd.
  unfold getSculpturesByArtist, getSculpturesByMaterial, getSculpturesByPeriod.
  rewrite (StoreFacts.ensureData_loaded _ Hd), Hd. simpl.
  split; [|split]; intros e.
  - rewrite (related_membership Artist.name
               (fun sculpture artist =>
                  String.eqb (Sculpture.artist sculpture) (Artist.id artist)
                  || String.eqb (Sculpture.artist sculpture) (Artist.name artist))).
    rewrite orb_true_iff, !String.eqb_eq. reflexivity.
  - rewrite (related_membership Material.name
               (fun sculpture material =>
                  opt_is (Sculpture.material sculpture) (Material.id material)
                  || opt_is (Sculpture.material sculpture) (Material.name material))).
    rewrite orb_true_iff, !opt_is_true. reflexivity.
  - rewrite (related_membership Period.name
               (fun sculpture period =>
                  opt_is (Sculpture.period sculpture) (Period.id period)
                  || opt_is (Sculpture.period sculpture) (Period.name period))).
    rewrite orb_true_iff, !opt_is_true. reflexivity.
Qed.

Lemma related_lookups_membership_witness :
  data Sample.loaded = Some Sample.museum
  /\ (In (Sample.thinker, Sample.bronze)
         (snd (getSculpturesByMaterial "bronz" Sample.loaded))
      <-> In Sample.bronze (materials Sample.museum)
          /\ Notions.OccursIn (toLowerCase "bronz")
                              (toLowerCase (Material.name Sample.bronze))
          /\ In Sample.thinker (sculptures Sample.museum)
          /\ (Sculpture.material Sample.thinker = Some (Material.id Sample.bronze)
              \/ Sculpture.material Sample.thinker
                 = Some (Material.name Sample.bronze))).
Proof.
  split; [reflexivity|].
  apply (proj1 (proj2 (related_lookups_membership
                         Sample.loaded "bronz" Sample.thinker eq_refl))).
Defined.

(** *** How the operations compose *)

(** X6. In every state of the store, a search whose only criterion is
    the name does what [findSculptureByName] does with that name: the
    same sculptures and the same effect on the store. *)
Theorem search_by_name_only (s : t) (name : string) :
  searchSculptures (Params.mk (Some name) None None None None) s
  = findSculptureByName name s.
Proof.
  unfold searchSculptures, findSculptureByName.
  destruct (data (ensureData s)) as [d|]; [|reflexivity].
  f_equal. apply filter_ext. intros sc.
  unfold searchFilter, nameCheck, refCheck. simpl.
  unfold truthy. destruct (String.eqb_spec name EmptyString) as [->|Hne]; simpl.
  - unfold nameHas. simpl. rewrite includes_empty. reflexivity.
  - destruct (nameHas (Sculpture.name sc) (toLowerCase name)); reflexivity.
Qed.

Lemma refCheck_found {E} (ename : E -> string) (query : string)
      (found : option E) :
  query <> EmptyString ->
  refCheck ename (Some query) found = true ->
  exists e, found = Some e /\ nameHas (ename e) (toLowerCase query) = true.
Proof.
  intros Hne. unfold refCheck, truthy.
  destruct (String.eqb_spec query EmptyString) as [|_]; [contradiction|].
  simpl. destruct found as [e|]; [|discriminate].
  intros Hname. exists e. auto.
Qed.

Lemma refMatch_some {E} (eid ename : E -> string) (ref : option string)
      (collection : list E) (e : E) :
  refMatch eid ename ref collection = Some e ->
  In e collection /\ (ref = Some (eid e) \/ ref = Some (ename e)).
Proof.
  unfold refMatch. intros Hfind. apply find_some in Hfind.
  destruct Hfind as [Hin Hans]. split; [exact Hin|].
  apply orb_true_iff in Hans. rewrite !opt_is_true in Hans. exact Hans.
Qed.

(** X7. On a loaded store, a sculpture that a search returns under a
    non-empty artist, material or period criterion is also returned,
    paired with the entity its reference resolves to, by the lookup by
    artist, by material or by period with the criterion as query. *)
Theorem search_within_related_lookups (s : t) (d : SculptureData)
        (params : Params.t) (query : string) (sc : Sculpture.t) :
  data s = Some d ->
  query <> EmptyString ->
  In sc (snd (searchSculptures params s)) ->
  (Params.artist params = Some query ->
   exists a, artistMatch d sc = Some a
             /\ In (sc, a) (snd (getSculpturesByArtist query s)))
  /\ (Params.material params = Some query ->
      exists m, materialMatch d sc = Some m
                /\ In (sc, m) (snd (getSculpturesByMaterial query s)))
  /\ (Params.period params = Some query ->
      exists p, periodMatch d sc = Some p
                /\ In (sc, p) (snd (getSculpturesByPeriod query s))).
Proof.
  intros Hd Hne.
  unfold searchSculptures, getSculpturesByArtist, getSculpturesByMaterial,
    getSculpturesByPeriod.
  rewrite (StoreFacts.ensureData_loaded _ Hd), Hd. simpl.
  intros Hin. apply filter_In in Hin. destruct Hin as [Hsc Hkeep].
  rewrite StoreFacts.searchFilter_checks in Hkeep.
  rewrite !andb_true_iff in Hkeep.
  destruct Hkeep as [[[[_ Hartist] Hmaterial] Hperiod] _].
  split; [|split]; intros Hq.
  - rewrite Hq in Hartist.
    destruct (refCheck_found _ _ Hne Hartist) as (a & Hfound & Hname).
    exists a. split; [exact Hfound|].
    destruct (refMatch_some _ _ _ _ Hfound) as [Hin Href].
    apply related_membership. rewrite nameHas_occurs in Hname.
    repeat split; try assumption.
    rewrite orb_true_iff, !String.eqb_eq.
    destruct Href as [[= ->]|[= ->]]; auto.
  - rewrite Hq in Hmaterial.
    destruct (refCheck_found _ _ Hne Hmaterial) as (m & Hfound & Hname).
    exists m. split; [exact Hfound|].
    destruct (refMatch_some _ _ _ _ Hfound) as [Hin Href].
    apply related_membership. rewrite nameHas_occurs in Hname.
    repeat split; try assumption.
    rewrite orb_true_iff, !opt_is_true. exact Href.
  - rewrite Hq in Hperiod.
    destruct (refCheck_found _ _ Hne Hperiod) as (p & Hfound & Hname).
    exists p. split; [exact Hfound|].
    destruct (refMatch_some _ _ _ _ Hfound) as [Hin Href].
    apply related_membership. rewrite nameHas_occurs in Hname.
    repeat split; try assumption.
    rewrite orb_true_iff, !opt_is_true. exact Href.
Qed.

Lemma search_within_related_lookups_witness :
  data Sample.loaded = Some Sample.museum
  /\ "bronze"%string <> EmptyString
  /\ In Sample.thinker
        (snd (searchSculptures
                (Params.mk None None (Some "bronze"%string) None None)
                Sample.loaded))
  /\ exists m, materialMatch Sample.museum Sample.thinker = Some m
               /\ In (Sample.thinker, m)
                     (snd (getSculpturesByMaterial "bronze" Sample.loaded)).
Proof.
  assert (Hin : In Sample.thinker
                   (snd (searchSculptures
                           (Params.mk None None (Some "bronze"%string) None None)
                           Sample.loaded)))
    by (simpl; auto).
  split; [reflexivity|]. split; [discriminate|]. split; [exact Hin|].
  apply (proj1 (proj2 (search_within_related_lookups
                         Sample.loaded
                         (Params.mk None None (Some "bronze"%string) None None)
                         (query := "bronze") Sample.thinker
                         eq_refl ltac:(discriminate) Hin))).
  reflexivity.
Defined.

Lemma givenNonEmpty_drops (c' c : option string) (v : string) :
  Notions.Drops c' c -> Spec.givenNonEmpty c' v -> Spec.givenNonEmpty c v.
Proof.
  intros [-> | ->] Hgiven; [|exact Hgiven].
  destruct Hgiven as [Hnone _]. discriminate.
Qed.

(** X8. In every state of the store, dropping criteria never loses a
    result: every sculpture a search returns is returned by the search
    with any part of its criteria left out. *)
Theorem search_narrows (s : t) (p p' : Params.t) (sc : Sculpture.t) :
  Notions.Weaker p' p ->
  In sc (snd (searchSculptures p s)) ->
  In sc (snd (searchSculptures p' s)).
Proof.
  intros (Hn & Ha & Hm & Hp & Hl). unfold searchSculptures.
  destruct (data (ensureData s)) as [d|]; simpl; [|auto].
  rewrite !filter_In, !StoreFacts.searchFilter_iff.
  intros [Hin (Pn & Pa & Pm & Pp & Pl)]. split; [exact Hin|].
  repeat split; intros v Hv.
  - apply Pn. exact (givenNonEmpty_drops Hn Hv).
  - apply Pa. exact (givenNonEmpty_drops Ha Hv).
  - apply Pm. exact (givenNonEmpty_drops Hm Hv).
  - apply Pp. exact (givenNonEmpty_drops Hp Hv).
  - apply Pl. exact (givenNonEmpty_drops Hl Hv).
Qed.

Lemma search_narrows_witness :
  Notions.Weaker (Params.mk None None (Some "bronze"%string) None None)
                 (Params.mk (Some "think"%string) None (Some "bronze"%string)
                            None None)
  /\ In Sample.thinker
        (snd (searchSculptures
                (Params.mk (Some "think"%string) None (Some "bronze"%string)
                           None None)
                Sample.loaded))
  /\ In Sample.thinker
        (snd (searchSculptures
                (Params.mk None None (Some "bronze"%string) None None)
                Sample.loaded)).
Proof.
  assert (Hweaker :
    Notions.Weaker (Params.mk None None (Some "bronze"%string) None None)
                   (Params.mk (Some "think"%string) None (Some "bronze"%string)
                              None None)).
  { repeat split; simpl; unfold Notions.Drops; auto. }
  assert (Hin : In Sample.thinker
                   (snd (searchSculptures
                           (Params.mk (Some "think"%string) None
                                      (Some "bronze"%string) None None)
                           Sample.loaded)))
    by (simpl; auto).
  split; [exact Hweaker|]. split; [exact Hin|].
  exact (@search_narrows Sample.loaded _ _ Sample.thinker Hweaker Hin).
Defined.

(** *** The store and the file *)

(** X9. No lookup changes a loaded store or reads the file again: each
    of the ten lookups leaves the object exactly as it was. *)
Theorem lookups_leave_loaded_store (s : t) (d : SculptureData)
        (name ident : string) (params : Params.t) :
  data s = Some d ->
  fst (findSculptureByName name s) = s
  /\ fst (getSculptureById ident s) = s
  /\ fst (getSculpturesByArtist name s) = s
  /\ fst (getSculpturesByMaterial name s) = s
  /\ fst (getSculpturesByPeriod name s) = s
  /\ fst (searchSculptures params s) = s
  /\ fst (getArtistById ident s) = s
  /\ fst (getMaterialById ident s) = s
  /\ fst (getPeriodById ident s) = s
  /\ fst (getLocationById ident s) = s.
Proof.
  intros Hd.
  unfold findSculptureByName, getSculptureById, getSculpturesByArtist,
    getSculpturesByMaterial, getSculpturesByPeriod, searchSculptures,
    getArtistById, getMaterialById, getPeriodById, getLocationById.
  rewrite (StoreFacts.ensureData_loaded _ Hd), Hd.
  repeat split.
Qed.

Lemma lookups_leave_loaded_store_witness :
  data Sample.loaded = Some Sample.museum
  /\ fst (searchSculptures Sample.materialBlank Sample.loaded) = Sample.loaded.
Proof.
  split; [reflexivity|].
  exact (proj1 (proj2 (proj2 (proj2 (proj2 (proj2
           (lookups_leave_loaded_store
              Sample.loaded "David" "s1" Sample.materialBlank eq_refl))))))).
Defined.

(** X10. On a store that is unset while the file can be read and
    parsed, each of the ten lookups does what it does on the store once
    loaded: it loads the file's dataset, reading the file once, and
    answers from it. *)
Theorem lookups_load_lazily (s : t) (d : SculptureData)
        (name ident : string) (params : Params.t) :
  data s = None ->
  file s = Parsed d ->
  fst (loadData s) = mk (Some d) (Parsed d) (S (reads s))
  /\ findSculptureByName name s = findSculptureByName name (fst (loadData s))
  /\ getSculptureById ident s = getSculptureById ident (fst (loadData s))
  /\ getSculpturesByArtist name s
     = getSculpturesByArtist name (fst (loadData s))
  /\ getSculpturesByMaterial name s
     = getSculpturesByMaterial name (fst (loadData s))
  /\ getSculpturesByPeriod name s
     = getSculpturesByPeriod name (fst (loadData s))
  /\ searchSculptures params s = searchSculptures params (fst (loadData s))
  /\ getArtistById ident s = getArtistById ident (fst (loadData s))
  /\ getMaterialById ident s = getMaterialById ident (fst (loadData s))
  /\ getPeriodById ident s = getPeriodById ident (fst (loadData s))
  /\ getLocationById ident s = getLocationById ident (fst (loadData s)).
Proof.
  destruct s as [dt f n]. simpl. intros -> ->. repeat split.
Qed.

Lemma lookups_load_lazily_witness :
  data (create (Parsed Sample.museum)) = None
  /\ file (create (Parsed Sample.museum)) = Parsed Sample.museum
  /\ findSculptureByName "david" (create (Parsed Sample.museum))
     = (Sample.loaded, [Sample.david]).
Proof.
  split; [reflexivity|]. split; [reflexivity|].
  rewrite (proj1 (proj2 (lookups_load_lazily
                           (create (Parsed Sample.museum)) "david" "s1"
                           Params.none eq_refl eq_refl))).
  reflexivity.
Defined.

End StoreExtras.

(** ** Further properties of the session coordinator *)

Module SessionExtras.

Import Js RTSession Effects RTEvents StringFacts.

(** *** Term extraction *)

(** X11. A vocabulary term is extracted exactly when, letter case set
    aside, it occurs somewhere in the text; in particular a term that
    stands in the text in any letter case, with anything before and
    after it, is extracted. *)
Theorem extractTerms_membership (text : string) (terms : list string)
        (term : string) :
  (In term (extractTermsFromText text terms)
   <-> In term terms
       /\ Notions.OccursIn (toLowerCase term) (toLowerCase text))
  /\ forall pre occurrence post,
       text = String.append pre (String.append occurrence post) ->
       toLowerCase occurrence = toLowerCase term ->
       In term terms ->
       In term (extractTermsFromText text terms).
Proof.
  assert (Hiff : In term (extractTermsFromText text terms)
                 <-> In term terms
                     /\ Notions.OccursIn (toLowerCase term) (toLowerCase text)).
  { unfold extractTermsFromText. rewrite filter_In, includes_spec. reflexivity. }
  split; [exact Hiff|].
  intros pre occurrence post -> Hcase Hin. apply Hiff. split; [exact Hin|].
  exists (toLowerCase pre), (toLowerCase post).
  rewrite !toLowerCase_append, Hcase. reflexivity.
Qed.

Lemma extractTerms_membership_witness :
  "I love MICHELANGELO's work"%string
  = String.append "I love " (String.append "MICHELANGELO" "'s work")
  /\ toLowerCase "MICHELANGELO" = toLowerCase "Michelangelo"
  /\ In "Michelangelo"%string commonArtists
  /\ In "Michelangelo"%string
        (extractTermsFromText "I love MICHELANGELO's work" commonArtists).
Proof.
  split; [reflexivity|]. split; [reflexivity|].
  split; [simpl; auto|].
  apply (proj2 (extractTerms_membership
                  "I love MICHELANGELO's work" commonArtists "Michelangelo")
               "I love "%string "MICHELANGELO"%string "'s work"%string).
  - reflexivity.
  - reflexivity.
  - simpl. auto.
Defined.

(** X12. Extraction looks at the text through its lower-case form only
    and keeps the vocabulary's order: the text in lower case gives the
    same terms, and the terms of a vocabulary made of two lists are
    those of the first followed by those of the second. *)
Theorem extractTerms_case_and_order (text : string) (terms terms' : list string) :
  extractTermsFromText (toLowerCase text) terms = extractTermsFromText text terms
  /\ extractTermsFromText text (terms ++ terms')
     = extractTermsFromText text terms ++ extractTermsFromText text terms'.
Proof.
  unfold extractTermsFromText. split.
  - rewrite toLowerCase_idempotent. reflexivity.
  - apply filter_app.
Qed.

(** *** Formatting *)

Lemma fold_paragraphs {X} (f : string -> X -> string) (paragraph : X -> string) :
  (forall info x, f info x = String.append info (paragraph x)) ->
  forall l init,
    fold_left f l init
    = String.append init (Notions.joined (map paragraph l)).
Proof.
  intros Hf l. induction l as [|x l IH]; intros init; simpl.
  - symmetry. apply append_empty_r.
  - rewrite IH, Hf. apply append_assoc.
Qed.

Ltac paragraph_shape :=
  intros info x; try destruct x;
  unfold Notions.sculptureParagraph, Notions.artistParagraph,
    Notions.materialParagraph, Notions.periodParagraph, Notions.sculptureLines;
  rewrite !append_assoc; reflexivity.

(** X13. Each formatter gives its header followed by one paragraph per
    result, in the order of the results and with nothing in between;
    an optional field that is absent or empty leaves no line. *)
Theorem formatters_header_then_paragraphs :
  (forall l, formatSculptureInfo l
             = String.append (Notions.header "SCULPTURE INFORMATION:")
                             (Notions.joined (map Notions.sculptureParagraph l)))
  /\ (forall l, formatArtistSculptureInfo l
                = String.append
                    (Notions.header "ARTIST AND SCULPTURE INFORMATION:")
                    (Notions.joined (map Notions.artistParagraph l)))
  /\ (forall l, formatMaterialSculptureInfo l
                = String.append
                    (Notions.header "MATERIAL AND SCULPTURE INFORMATION:")
                    (Notions.joined (map Notions.materialParagraph l)))
  /\ (forall l, formatPeriodSculptureInfo l
                = String.append
                    (Notions.header "PERIOD AND SCULPTURE INFORMATION:")
                    (Notions.joined (map Notions.periodParagraph l)))
  /\ (forall label, optLine label None = EmptyString
                    /\ optLine label (Some EmptyString) = EmptyString).
Proof.
  split; [|split; [|split; [|split]]].
  - intros l. unfold formatSculptureInfo.
    rewrite (fold_paragraphs _ Notions.sculptureParagraph); [reflexivity|].
    paragraph_shape.
  - intros l. unfold formatArtistSculptureInfo.
    rewrite (fold_paragraphs _ Notions.artistParagraph); [reflexivity|].
    paragraph_shape.
  - intros l. unfold formatMaterialSculptureInfo.
    rewrite (fold_paragraphs _ Notions.materialParagraph); [reflexivity|].
    paragraph_shape.
  - intros l. unfold formatPeriodSculptureInfo.
    rewrite (fold_paragraphs _ Notions.periodParagraph); [reflexivity|].
    paragraph_shape.
  - intros label. split; reflexivity.
Qed.

(** *** Inbound messages *)

Section Inbound.

Context {DS : Type} `{DataService DS}.
Variable rejects : list RemoteCall -> RemoteCall -> bool.

(** X14. A binary frame from the client becomes exactly one remote
    call, [sendAudio] with the same bytes; nothing is sent back to the
    client and the data service is not touched. When the remote session
    rejects the call, [handleBinaryMessage] throws and [handleMessage]
    returns normally all the same. *)
Theorem binary_forwarded_verbatim (bytes : list byte) (s : Session DS) :
  handleMessage rejects (InBinary bytes) s
  = (mkSession (dataService s) (calls s ++ [SendAudio bytes]) (frames s),
     Returned tt)
  /\ handleBinaryMessage rejects bytes s
     = (mkSession (dataService s) (calls s ++ [SendAudio bytes]) (frames s),
        if rejects (calls s) (SendAudio bytes)
        then Thrown RemoteError else Returned tt).
Proof.
  unfold handleMessage, handleBinaryMessage, tryCatch, clientCall, throw, ret.
  destruct (rejects (calls s) (SendAudio bytes)); split; reflexivity.
Qed.

(** X15. A text frame that does not parse, or that parses to a message
    of another type than [user_message], changes nothing: no remote
    call, no frame to the client, the session exactly as it was, and
    [handleMessage] returns normally. *)
Theorem other_text_ignored (parsed : option WSMessage) (s : Session DS) :
  isUserMessage parsed = false ->
  handleMessage rejects (InText parsed) s = (s, Returned tt).
Proof.
  unfold handleMessage, handleTextMessage, tryCatch, throw, ret.
  destruct parsed as [[]|]; simpl; intros Hother;
    try discriminate; reflexivity.
Qed.

Lemma clientCall_effects (c : RemoteCall) (s : Session DS) :
  fst (clientCall rejects c s)
  = mkSession (dataService s) (calls s ++ [c]) (frames s).
Proof. unfold clientCall. destruct (rejects (calls s) c); reflexivity. Qed.

Lemma handleTextMessage_frames (parsed : option WSMessage) (s : Session DS) :
  frames (fst (handleTextMessage rejects parsed s)) = frames s.
Proof.
  destruct parsed as [[id delta|id text|id text| |greeting|id]|];
    try reflexivity.
  unfold handleTextMessage, tryCatch, bind, hasDataService. simpl.
  assert (Hsend : forall s0 : Session DS,
             frames s0 = frames s ->
             frames (fst
               (let (s', o) :=
                  let (s', o) := clientCall rejects (SendItem User text) s0 in
                  match o with
                  | Returned _ => clientCall rejects GenerateResponse s'
                  | Thrown e => (s', Thrown e)
                  end in
                match o with
                | Returned a => (s', Returned a)
                | Thrown e => throw e s'
                end)) = frames s).
  { intros s0 Hf. unfold clientCall, throw.
    destruct (rejects (calls s0) (SendItem User text)); simpl; [exact Hf|].
    destruct (rejects (calls s0 ++ [SendItem User text]) GenerateResponse);
      simpl; exact Hf. }
  destruct (match dataService s with Some _ => true | None => false end
            && truthy text).
  - destruct (SessionFacts.enrich_extends rejects text s) as [Hf _].
    pose proof (SessionFacts.enrich_returns rejects text s) as Hret.
    destruct (enrichWithSculptureData rejects text s) as [s1 o].
    simpl in *. subst o. apply Hsend. exact Hf.
  - apply Hsend. reflexivity.
Qed.

(** X16. Whatever the client sends, whatever the data service and the
    remote session do, [handleMessage] returns normally and sends no
    frame to the client: an error in handling one message is never
    reported to the client and never leaves the handler. *)
Theorem handleMessage_never_throws_nor_answers (message : Inbound)
        (s : Session DS) :
  snd (handleMessage rejects message s) = Returned tt
  /\ frames (fst (handleMessage rejects message s)) = frames s.
Proof.
  destruct (SessionFacts.handleMessage_session rejects message s)
    as [Hret Hfst].
  split; [exact Hret|]. rewrite Hfst.
  destruct message as [bytes|parsed].
  - unfold handleBinaryMessage, tryCatch.
    pose proof (clientCall_effects (SendAudio bytes) s) as Hcall.
    destruct (clientCall rejects (SendAudio bytes) s) as [s1 [[]|e]];
      simpl in *; subst s1; reflexivity.
  - apply handleTextMessage_frames.
Qed.

(** X17. When the remote session rejects the user's item, the handler
    of a user message throws the error again without asking for a
    response: the call log ends with the submission of the user's item,
    after at most one system-role context item, and no frame is sent;
    [handleMessage] returns normally. *)
Theorem rejected_user_item_stops_turn (id text : string) (s : Session DS) :
  (forall history, rejects history (SendItem User text) = true) ->
  snd (handleTextMessage rejects (Some (UserMessage id text)) s)
  = Thrown RemoteError
  /\ (exists added,
         ContextOnly added
         /\ calls (fst (handleTextMessage rejects (Some (UserMessage id text)) s))
            = calls s ++ added ++ [SendItem User text])
  /\ handleMessage rejects (InText (Some (UserMessage id text))) s
     = (fst (handleTextMessage rejects (Some (UserMessage id text)) s),
        Returned tt).
Proof.
  intros Hreject.
  assert (Hmain :
    snd (handleTextMessage rejects (Some (UserMessage id text)) s)
    = Thrown RemoteError
    /\ exists added,
         ContextOnly added
         /\ calls (fst (handleTextMessage rejects (Some (UserMessage id text)) s))
            = calls s ++ added ++ [SendItem User text]).
  { unfold handleTextMessage, tryCatch, bind, hasDataService. simpl.
    destruct (match dataService s with Some _ => true | None => false end
              && truthy text).
    - destruct (SessionFacts.enrich_extends rejects text s)
        as [_ (added & Hc & Hadded)].
      pose proof (SessionFacts.enrich_returns rejects text s) as Hret.
      destruct (enrichWithSculptureData rejects text s) as [s1 o].
      simpl in *. subst o. unfold clientCall, throw. rewrite Hreject. simpl.
      split; [reflexivity|]. exists added. split; [exact Hadded|].
      rewrite Hc, <- app_assoc. reflexivity.
    - unfold ret, clientCall, throw. rewrite Hreject. simpl.
      split; [reflexivity|]. exists []. split; [left; reflexivity|reflexivity]. }
  destruct Hmain as [Hthrown Hcalls].
  split; [exact Hthrown|]. split; [exact Hcalls|].
  unfold handleMessage, tryCatch at 1.
  destruct (handleTextMessage rejects (Some (UserMessage id text)) s)
    as [s1 o]. simpl in *. subst o. reflexivity.
Qed.

End Inbound.

Lemma other_text_ignored_witness :
  isUserMessage (Some (TextDone "item_1-0")) = false
  /\ handleMessage (H := Sample.broken) Sample.refusingSystemItems
                   (InText (Some (TextDone "item_1-0")))
                   (mkSession (Some tt) [GenerateResponse] [])
     = (mkSession (Some tt) [GenerateResponse] [], Returned tt).
Proof.
  split; [reflexivity|].
  apply (other_text_ignored (H := Sample.broken) Sample.refusingSystemItems
                            (Some (TextDone "item_1-0"))).
  reflexivity.
Defined.

Lemma rejected_user_item_stops_turn_witness :
  (forall history : list RemoteCall,
      (fun _ _ => true) history (SendItem User "Tell me about David") = true)
  /\ snd (handleTextMessage (fun _ _ => true)
            (Some (UserMessage "1" "Tell me about David"))
            (Sample.session Sample.loaded))
     = Thrown RemoteError.
Proof.
  split; [intros history; reflexivity|].
  apply (rejected_user_item_stops_turn
           (fun _ _ => true) "1" "Tell me about David"
           (Sample.session Sample.loaded)).
  intros history. reflexivity.
Defined.

(** *** Outbound content *)

Section Outbound.

Context {DS : Type}.

Lemma forAwaitText_failingAfter (contentId : string) (chunks : list string)
      (s : Session DS) :
  forAwaitText contentId (failingAfter chunks) s
  = (mkSession (dataService s) (calls s)
               (frames s ++ Spec.deltaFrames contentId chunks),
     Thrown StreamError).
Proof.
  revert s. induction chunks as [|text rest IH]; intros s; simpl.
  - destruct s. unfold throw. simpl. rewrite app_nil_r. reflexivity.
  - unfold bind, send. simpl. rewrite IH. simpl.
    rewrite <- app_assoc. reflexivity.
Qed.

(** X18. When the stream of a text content item is rejected after some
    chunks, the coordinator has sent one [text_delta] frame for each
    chunk received, in order, sends no [text_done] frame, and the
    handler throws the error again. *)
Theorem text_content_stream_fails (s : Session DS) (itemId : string)
        (contentIndex : nat) (chunks : list string) :
  handleTextContent (mkText itemId contentIndex (failingAfter chunks)) s
  = (mkSession (dataService s) (calls s)
               (frames s
                ++ Spec.deltaFrames (contentIdOf itemId contentIndex) chunks),
     Thrown StreamError).
Proof.
  unfold handleTextContent, tryCatch, bind. simpl.
  rewrite forAwaitText_failingAfter. reflexivity.
Qed.

Lemma handleTextContent_streamOf (s : Session DS) (itemId : string)
      (contentIndex : nat) (chunks : list string) :
  handleTextContent (mkText itemId contentIndex (streamOf chunks)) s
  = (mkSession (dataService s) (calls s)
               (frames s ++ textItemFrames (itemId, contentIndex, chunks)),
     Returned tt).
Proof.
  unfold handleTextContent, tryCatch, bind, textItemFrames. simpl.
  rewrite SessionFacts.forAwaitText_streamOf. unfold send. simpl.
  rewrite <- app_assoc. reflexivity.
Qed.

(** X19. The handler of an input-audio item sends [speech_started]
    first; when the item completes it then sends one [transcription]
    frame with the item's id and its transcription, the empty string
    standing for an absent one, and returns; when waiting for the item
    fails, [speech_started] is the only frame sent and the handler
    throws. It makes no remote call. *)
Theorem input_audio_frames (s : Session DS) (id : string)
        (text : option string) :
  handleInputAudio (mkInputAudio id true text) s
  = (mkSession (dataService s) (calls s)
               (frames s ++ [TextFrame SpeechStarted;
                             TextFrame (Transcription id (orElse text ""))]),
     Returned tt)
  /\ handleInputAudio (mkInputAudio id false text) s
     = (mkSession (dataService s) (calls s)
                  (frames s ++ [TextFrame SpeechStarted]),
        Thrown StreamError)
  /\ orElse None "" = EmptyString.
Proof.
  unfold handleInputAudio, tryCatch, bind, send, waitForCompletion, ret, throw.
  simpl. rewrite <- app_assoc. repeat split.
Qed.

(** *** Audio content with its transcript *)

Lemma interleave_length {A} (l1 l2 l : list A) :
  Interleave l1 l2 l -> length l = length l1 + length l2.
Proof.
  induction 1 as [|a l1 l2 l Hi IH|a l1 l2 l Hi IH]; simpl.
  - reflexivity.
  - rewrite IH. reflexivity.
  - rewrite IH. lia.
Qed.

Lemma textMessages_app (l1 l2 : list Frame) :
  Spec.textMessages (l1 ++ l2) = Spec.textMessages l1 ++ Spec.textMessages l2.
Proof. unfold Spec.textMessages. apply flat_map_app. Qed.

Lemma interleave_text (l1 l2 l : list Frame) :
  Interleave l1 l2 l ->
  Spec.textMessages l1 = [] ->
  Spec.textMessages l = Spec.textMessages l2.
Proof.
  induction 1 as [|a l1 l2 l Hi IH|a l1 l2 l Hi IH]; intros Hno.
  - reflexivity.
  - simpl in *. apply app_eq_nil in Hno. destruct Hno as [Ha Hl1].
    rewrite Ha, IH by exact Hl1. reflexivity.
  - simpl. rewrite IH by exact Hno. reflexivity.
Qed.

Lemma textMessages_binary (chunks : list TypedArray) :
  Spec.textMessages (map (fun c => BinaryFrame (bufferToSend c)) chunks) = [].
Proof. induction chunks as [|c rest IH]; simpl; [reflexivity|exact IH]. Qed.

Lemma textMessages_deltas (contentId : string) (texts : list string) :
  Spec.textMessages (Spec.deltaFrames contentId texts)
  = map (TextDelta contentId) texts.
Proof.
  induction texts as [|t rest IH]; simpl; [reflexivity|].
  f_equal. exact IH.
Qed.

(** X20. For an audio content item whose audio stream and transcript
    stream both deliver their chunks and end, every run of the handler
    returns normally, makes no remote call, and sends exactly one frame
    per audio chunk, one [text_delta] per transcript chunk and one
    [text_done]; the text frames come in transcript order with the
    item's id, [text_done] last among them, however they fall between
    the binary frames. *)
Theorem audio_content_with_transcript (s s' : Session DS) (itemId : string)
        (contentIndex : nat) (chunks : list TypedArray) (texts : list string)
        (out : Outcome unit) :
  handleAudioContent
    (mkAudio itemId contentIndex (streamOf chunks) (streamOf texts)) s s' out ->
  out = Returned tt
  /\ calls s' = calls s
  /\ dataService s' = dataService s
  /\ exists sent,
       frames s' = frames s ++ sent
       /\ length sent = length chunks + length texts + 1
       /\ Spec.textMessages sent
          = map (TextDelta (contentIdOf itemId contentIndex)) texts
            ++ [TextDone (contentIdOf itemId contentIndex)].
Proof.
  intros Hrun. inversion Hrun as [sent Hsent Hs' Hout]. subst. clear Hrun.
  unfold taskOutcome, taskFrames, handleAudioChunks, handleAudioTranscript,
    bind in *.
  simpl in *.
  rewrite SessionFacts.forAwaitAudio_streamOf in *.
  rewrite SessionFacts.forAwaitText_streamOf in *.
  simpl in *.
  split; [reflexivity|]. split; [reflexivity|]. split; [reflexivity|].
  exists sent. split; [reflexivity|]. split.
  - rewrite (interleave_length Hsent).
    rewrite length_map, length_app. unfold Spec.deltaFrames.
    rewrite length_map. simpl. lia.
  - rewrite (interleave_text Hsent (textMessages_binary chunks)).
    rewrite textMessages_app, textMessages_deltas. reflexivity.
Qed.

End Outbound.

Lemma audio_content_with_transcript_witness :
  handleAudioContent
    (mkAudio "item_1" 0 (streamOf [Sample.whole]) (streamOf ["Hi"%string]))
    Sample.blank
    (mkSession None [] [TextFrame (TextDelta "item_1-0" "Hi");
                        BinaryFrame [x01; x02; x03; x04];
                        TextFrame (TextDone "item_1-0")])
    (Returned tt)
  /\ Spec.textMessages [TextFrame (TextDelta "item_1-0" "Hi");
                        BinaryFrame [x01; x02; x03; x04];
                        TextFrame (TextDone "item_1-0")]
     = [TextDelta "item_1-0" "Hi"; TextDone "item_1-0"].
Proof.
  assert (Hrun :
    handleAudioContent
      (mkAudio "item_1" 0 (streamOf [Sample.whole]) (streamOf ["Hi"%string]))
      Sample.blank
      (mkSession None [] [TextFrame (TextDelta "item_1-0" "Hi");
                          BinaryFrame [x01; x02; x03; x04];
                          TextFrame (TextDone "item_1-0")])
      (Returned tt)).
  { apply (audio_run
             (mkAudio "item_1" 0 (streamOf [Sample.whole])
                      (streamOf ["Hi"%string]))
             Sample.blank
             (sent := [TextFrame (TextDelta "item_1-0" "Hi");
                       BinaryFrame [x01; x02; x03; x04];
                       TextFrame (TextDone "item_1-0")])).
    cbv. apply interleave_right. apply interleave_left.
    apply interleave_right. apply interleave_nil. }
  split; [exact Hrun|].
  destruct (@audio_content_with_transcript _ _ _ _ _ _ _ _ Hrun)
    as (_ & _ & _ & sent & Hframes & _ & Htext).
  simpl in Hframes. rewrite <- Hframes in Htext. exact Htext.
Defined.

(** *** Frame ids *)

Lemma dashFree_digits (d : Decimal.uint) :
  Notions.dashFree (NilEmpty.string_of_uint d) = true.
Proof. induction d; simpl; auto. Qed.

Lemma dash_in_append (a b : string) :
  Notions.dashFree (String.append a (String "-" b)) = false.
Proof.
  induction a as [|c a IH]; simpl; [reflexivity|].
  rewrite IH. apply andb_false_r.
Qed.

Lemma split_at_last_dash (a b d e : string) :
  Notions.dashFree d = true ->
  Notions.dashFree e = true ->
  String.append a (String "-" d) = String.append b (String "-" e) ->
  a = b /\ d = e.
Proof.
  intros Hd He. revert b.
  induction a as [|x a IH]; intros [|y b] Heq; simpl in Heq.
  - injection Heq as Heq. auto.
  - injection Heq as _ Heq. rewrite Heq, dash_in_append in Hd. discriminate.
  - injection Heq as _ Heq. rewrite <- Heq, dash_in_append in He. discriminate.
  - injection Heq as -> Heq. destruct (IH b Heq) as [-> ->]. auto.
Qed.

Lemma numberToString_injective (n m : nat) :
  numberToString n = numberToString m -> n = m.
Proof.
  unfold numberToString. intros Heq.
  apply DecimalNat.Unsigned.to_uint_inj.
  apply (f_equal NilEmpty.uint_of_string) in Heq.
  rewrite !NilEmpty.usu in Heq. injection Heq as Heq. exact Heq.
Qed.

(** X21. The id that frames carry determines the content item: two
    content items have the same frame id only when they have the same
    item id and the same content index. *)
Theorem contentIdOf_injective (itemId itemId' : string) (index index' : nat) :
  contentIdOf itemId index = contentIdOf itemId' index' ->
  itemId = itemId' /\ index = index'.
Proof.
  unfold contentIdOf. rewrite !append_assoc. simpl. intros Heq.
  apply split_at_last_dash in Heq; try apply dashFree_digits.
  destruct Heq as [Hitem Hindex]. split; [exact Hitem|].
  apply numberToString_injective. exact Hindex.
Qed.

Lemma contentIdOf_injective_witness :
  contentIdOf "item-1" 12 = contentIdOf "item-1" (3 * 4)
  /\ ("item-1"%string = "item-1"%string /\ 12 = 3 * 4).
Proof.
  split; [reflexivity|].
  apply (contentIdOf_injective "item-1" "item-1" 12 (3 * 4)). reflexivity.
Defined.

(** *** Responses and the event loop *)

Section Responses.

Context {DS : Type}.

Lemma extend_nil (s : Session DS) : extend s [] = s.
Proof. destruct s. unfold extend. simpl. rewrite app_nil_r. reflexivity. Qed.

Lemma extend_extend (s : Session DS) (a b : list Frame) :
  extend (extend s a) b = extend s (a ++ b).
Proof. unfold extend. simpl. rewrite app_assoc. reflexivity. Qed.

(** A body that, on the elements the list stands for, has one run,
    which returns after sending the element's frames. *)
Lemma forAwait_followedBy {A B} (body : B -> Run) (g : A -> B)
      (framesOf : A -> list Frame) (l : list A) (rest : Stream B) :
  (forall a (s s' : Session DS) out,
      body (g a) s s' out <-> s' = extend s (framesOf a) /\ out = Returned tt) ->
  forall (s s' : Session DS) out,
    forAwait body (followedBy (map g l) rest) s s' out
    <-> forAwait body rest (extend s (concat (map framesOf l))) s' out.
Proof.
  intros Hbody. induction l as [|a l IH]; intros s s' out; simpl.
  - rewrite extend_nil. reflexivity.
  - rewrite <- extend_extend, <- IH. split.
    + intros Hrun.
      inversion Hrun as [| |? ? ? s1 ? ? Ha Hrest|? ? ? ? e Ha]; subst.
      * apply Hbody in Ha. destruct Ha as [-> _]. exact Hrest.
      * apply Hbody in Ha. destruct Ha as [_ Hout]. discriminate.
    + intros Hrest. eapply forAwait_next; [|exact Hrest].
      apply Hbody. auto.
Qed.

Lemma followedBy_done {A} (l : list A) : followedBy l Done = streamOf l.
Proof. induction l as [|a l IH]; simpl; [reflexivity|]. rewrite IH. reflexivity. Qed.

Lemma forAwait_streamOf {A B} (body : B -> Run) (g : A -> B)
      (framesOf : A -> list Frame) (l : list A) :
  (forall a (s s' : Session DS) out,
      body (g a) s s' out <-> s' = extend s (framesOf a) /\ out = Returned tt) ->
  forall (s s' : Session DS) out,
    forAwait body (streamOf (map g l)) s s' out
    <-> s' = extend s (concat (map framesOf l)) /\ out = Returned tt.
Proof.
  intros Hbody s s' out.
  rewrite <- followedBy_done, (forAwait_followedBy body g framesOf l Done Hbody).
  split.
  - intros Hrun. inversion Hrun; subst. auto.
  - intros [-> ->]. constructor.
Qed.

Lemma handleContent_text_only (content : option (string * nat * list string))
      (s s' : Session DS) (out : Outcome unit) :
  handleContent (contentOf content) s s' out
  <-> s' = extend s (contentFrames content) /\ out = Returned tt.
Proof.
  destruct content as [[[itemId contentIndex] chunks]|]; simpl.
  - unfold runs. rewrite handleTextContent_streamOf.
    fold (extend s (textItemFrames (itemId, contentIndex, chunks))).
    split; [intros [= <- <-]; auto|intros [-> ->]; reflexivity].
  - unfold skips. rewrite extend_nil. reflexivity.
Qed.

Lemma handleItem_text_only
      (item : option (list (option (string * nat * list string))))
      (s s' : Session DS) (out : Outcome unit) :
  handleItem (itemOf item) s s' out
  <-> s' = extend s (itemFrames item) /\ out = Returned tt.
Proof.
  destruct item as [contents|]; simpl.
  - apply (forAwait_streamOf handleContent contentOf contentFrames).
    apply handleContent_text_only.
  - unfold skips. rewrite extend_nil. reflexivity.
Qed.

(** X22. A response without audio, whose text streams deliver their
    chunks and end, has exactly one run: it returns normally, makes no
    remote call, and sends the frames of the text content items one
    item after the other, in the order of the response: for each, its
    [text_delta] frames then its [text_done]. Items and contents of
    other types send nothing. *)
Theorem response_without_audio
        (items : list (option (list (option (string * nat * list string)))))
        (s s' : Session DS) (out : Outcome unit) :
  handleResponse (streamOf (map itemOf items)) s s' out
  <-> s' = mkSession (dataService s) (calls s)
                     (frames s ++ concat (map itemFrames items))
      /\ out = Returned tt.
Proof.
  unfold handleResponse.
  apply (forAwait_streamOf handleItem itemOf itemFrames).
  apply handleItem_text_only.
Qed.

(** X23. When the stream of a text content item is rejected, the
    response ends there: the contents before it have sent their frames,
    the item has sent the [text_delta] frames of the chunks it received
    and no [text_done], the contents and the items after it send
    nothing, and [handleResponse] throws. *)
Theorem response_stops_at_failed_content
        (before : list (option (string * nat * list string)))
        (itemId : string) (contentIndex : nat) (chunks : list string)
        (after : Stream RTContent) (later : Stream RTItem)
        (s s' : Session DS) (out : Outcome unit) :
  handleResponse
    (Chunk (MessageItem
              (followedBy (map contentOf before)
                 (Chunk (TextContent
                           (mkText itemId contentIndex (failingAfter chunks)))
                        after)))
           later) s s' out
  <-> s' = mkSession (dataService s) (calls s)
                     (frames s
                      ++ concat (map contentFrames before)
                      ++ Spec.deltaFrames (contentIdOf itemId contentIndex) chunks)
      /\ out = Thrown StreamError.
Proof.
  assert (Hitem : forall s1 o1,
    handleItem
      (MessageItem
         (followedBy (map contentOf before)
            (Chunk (TextContent
                      (mkText itemId contentIndex (failingAfter chunks)))
                   after))) s s1 o1
    <-> s1 = mkSession (dataService s) (calls s)
                       (frames s
                        ++ concat (map contentFrames before)
                        ++ Spec.deltaFrames (contentIdOf itemId contentIndex)
                                            chunks)
        /\ o1 = Thrown StreamError).
  { intros s1 o1. simpl.
    rewrite (forAwait_followedBy handleContent contentOf contentFrames
               before _ handleContent_text_only).
    assert (Hfail :
      handleTextContent (mkText itemId contentIndex (failingAfter chunks))
                        (extend s (concat (map contentFrames before)))
      = (mkSession (dataService s) (calls s)
                   (frames s
                    ++ concat (map contentFrames before)
                    ++ Spec.deltaFrames (contentIdOf itemId contentIndex) chunks),
         Thrown StreamError)).
    { unfold handleTextContent, tryCatch, bind. simpl.
      rewrite forAwaitText_failingAfter. unfold extend, throw. simpl.
      rewrite <- app_assoc. reflexivity. }
    split.
    - intros Hrun.
      inversion Hrun as [| |? ? ? s2 ? ? Ha Hrest|? ? ? ? e Ha]; subst;
        simpl in Ha; unfold runs in Ha; rewrite Hfail in Ha.
      + discriminate.
      + injection Ha as <- <-. auto.
    - intros [-> ->]. apply forAwait_throw. simpl. unfold runs. exact Hfail. }
  unfold handleResponse. split.
  - intros Hrun.
    inversion Hrun as [| |? ? ? s2 ? ? Ha Hrest|? ? ? ? e Ha]; subst;
      apply Hitem in Ha; destruct Ha as [Hs Ho].
    + discriminate.
    + injection Ho as ->. auto.
  - intros [-> ->]. apply forAwait_throw. apply Hitem. auto.
Qed.

Lemma framesOnly_forAwait {A} (body : A -> Run) (stream : Stream A) :
  (forall a, FramesOnly (DS := DS) (body a)) ->
  FramesOnly (forAwait body stream).
Proof.
  intros Hbody s s' out Hrun.
  induction Hrun as [s|s|a rest s s1 s2 out Ha Hrest IH|a rest s s1 e Ha].
  - repeat split. exists []. symmetry. apply app_nil_r.
  - repeat split. exists []. symmetry. apply app_nil_r.
  - destruct (Hbody a _ _ _ Ha) as (Hd & Hc & sent & Hf).
    destruct IH as (Hd' & Hc' & sent' & Hf').
    split; [congruence|]. split; [congruence|].
    exists (sent ++ sent'). rewrite Hf', Hf, app_assoc. reflexivity.
  - exact (Hbody a _ _ _ Ha).
Qed.

Lemma total_forAwait {A} (body : A -> Run) (stream : Stream A) :
  (forall a, Total (DS := DS) (body a)) ->
  Total (forAwait body stream).
Proof.
  intros Hbody. induction stream as [| |a rest IH]; intros s.
  - exists s, (Returned tt). constructor.
  - exists s, (Thrown StreamError). constructor.
  - destruct (Hbody a s) as (s1 & [[]|e] & Ha).
    + destruct (IH s1) as (s2 & out & Hrest).
      exists s2, out. eapply forAwait_next; eassumption.
    + exists s1, (Thrown e). apply forAwait_throw. exact Ha.
Qed.

Lemma forAwaitText_extends (contentId : string) (chunks : Stream string)
      (s : Session DS) :
  exists sent, fst (forAwaitText contentId chunks s) = extend s sent.
Proof.
  revert s. induction chunks as [| |text rest IH]; intros s; simpl.
  - exists []. symmetry. apply extend_nil.
  - exists []. symmetry. apply extend_nil.
  - unfold bind, send. simpl.
    destruct (IH (mkSession (dataService s) (calls s)
                            (frames s ++ [TextFrame (TextDelta contentId text)])))
      as (sent & Hsent).
    exists ([TextFrame (TextDelta contentId text)] ++ sent).
    rewrite Hsent. unfold extend. simpl. rewrite <- app_assoc. reflexivity.
Qed.

Lemma framesOnly_runs (m : M DS unit) :
  (forall s, exists sent, fst (m s) = extend s sent) ->
  FramesOnly (runs m).
Proof.
  intros Hm s s' out Hrun. unfold runs in Hrun.
  destruct (Hm s) as (sent & Hsent). rewrite Hrun in Hsent. simpl in Hsent.
  subst s'. repeat split. exists sent. reflexivity.
Qed.

Lemma handleTextContent_extends (content : RTTextContent) (s : Session DS) :
  exists sent, fst (handleTextContent content s) = extend s sent.
Proof.
  unfold handleTextContent, tryCatch, bind.
  destruct (forAwaitText_extends
              (contentIdOf (textItemId content) (textContentIndex content))
              (textChunks content) s) as (sent & Hsent).
  destruct (forAwaitText _ _ s) as [s1 [[]|e]]; simpl in *; subst s1.
  - exists (sent ++ [TextFrame (TextDone
                       (contentIdOf (textItemId content)
                                    (textContentIndex content)))]).
    unfold send, extend. simpl. rewrite <- app_assoc. reflexivity.
  - exists sent. reflexivity.
Qed.

Lemma handleInputAudio_extends (event : RTInputAudioItem) (s : Session DS) :
  exists sent, fst (handleInputAudio event s) = extend s sent.
Proof.
  destruct event as [id [|] text];
    unfold handleInputAudio, tryCatch, bind, send, waitForCompletion, ret,
      throw, extend; simpl; eexists; rewrite <- ?app_assoc; reflexivity.
Qed.

Lemma framesOnly_skips : FramesOnly (DS := DS) skips.
Proof.
  intros s s' out [-> _]. repeat split. exists []. symmetry. apply app_nil_r.
Qed.

Lemma framesOnly_handleAudioContent (content : RTAudioContent) :
  FramesOnly (DS := DS) (handleAudioContent content).
Proof.
  intros s s' out Hrun. inversion Hrun as [sent Hsent Hs' Hout]. subst.
  repeat split. exists sent. reflexivity.
Qed.

Lemma framesOnly_handleEvent (event : RTEvent) :
  FramesOnly (DS := DS) (handleEvent event).
Proof.
  destruct event as [response|input|]; simpl.
  - apply framesOnly_forAwait. intros [contents|]; simpl.
    + apply framesOnly_forAwait. intros [text|audio|]; simpl.
      * apply framesOnly_runs, handleTextContent_extends.
      * apply framesOnly_handleAudioContent.
      * apply framesOnly_skips.
    + apply framesOnly_skips.
  - apply framesOnly_runs, handleInputAudio_extends.
  - apply framesOnly_skips.
Qed.

Lemma total_runs (m : M DS unit) : Total (runs m).
Proof.
  intros s. exists (fst (m s)), (snd (m s)). unfold runs.
  destruct (m s); reflexivity.
Qed.

Lemma total_skips : Total (DS := DS) skips.
Proof. intros s. exists s, (Returned tt). split; reflexivity. Qed.

Lemma total_handleEvent (event : RTEvent) : Total (DS := DS) (handleEvent event).
Proof.
  destruct event as [response|input|]; simpl.
  - apply total_forAwait. intros [contents|]; simpl.
    + apply total_forAwait. intros [text|audio|]; simpl.
      * apply total_runs.
      * intros s. apply SessionFacts.audio_run_exists.
      * apply total_skips.
    + apply total_skips.
  - apply total_runs.
  - apply total_skips.
Qed.

(** X24. Whatever events the remote session delivers, the event loop
    has a run, and in every run the only remote calls are the two
    system prompts, made first and in this order whatever the remote
    session answers to them; the loop leaves the data service as it is
    and what it does afterwards is only to send frames to the client. *)
Theorem event_loop_only_relays (events : Stream RTEvent) (s : Session DS) :
  (exists s' out, startEventLoop events s s' out)
  /\ forall s' out,
       startEventLoop events s s' out ->
       calls s' = calls s ++ [SendItem System guidePrompt;
                              SendItem System databasePrompt]
       /\ dataService s' = dataService s
       /\ exists sent, frames s' = frames s ++ sent.
Proof.
  unfold startEventLoop. split.
  - apply (total_forAwait handleEvent events total_handleEvent).
  - intros s' out Hrun.
    destruct (@framesOnly_forAwait _ handleEvent events
                framesOnly_handleEvent _ _ _ Hrun)
      as (Hd & Hc & sent & Hf).
    unfold fire in *. simpl in *. rewrite <- app_assoc in Hc. simpl in Hc.
    split; [exact Hc|]. split; [exact Hd|]. exists sent. exact Hf.
Qed.

End Responses.

Lemma event_loop_only_relays_witness :
  startEventLoop
    (streamOf [InputAudioEvent (mkInputAudio "in_1" true (Some "Hello"%string));
               OtherEvent])
    Sample.blank
    (mkSession None
               [SendItem System guidePrompt; SendItem System databasePrompt]
               [TextFrame SpeechStarted;
                TextFrame (Transcription "in_1" "Hello")])
    (Returned tt)
  /\ calls (mkSession (@None unit)
               [SendItem System guidePrompt; SendItem System databasePrompt]
               [TextFrame SpeechStarted;
                TextFrame (Transcription "in_1" "Hello")])
     = calls Sample.blank ++ [SendItem System guidePrompt;
                              SendItem System databasePrompt].
Proof.
  assert (Hrun :
    startEventLoop
      (streamOf [InputAudioEvent (mkInputAudio "in_1" true (Some "Hello"%string));
                 OtherEvent])
      Sample.blank
      (mkSession None
                 [SendItem System guidePrompt; SendItem System databasePrompt]
                 [TextFrame SpeechStarted;
                  TextFrame (Transcription "in_1" "Hello")])
      (Returned tt)).
  { unfold startEventLoop. simpl.
    eapply forAwait_next; [simpl; unfold runs; reflexivity|].
    eapply forAwait_next; [simpl; split; reflexivity|].
    apply forAwait_done. }
  split; [exact Hrun|].
  exact (proj1 (proj2 (event_loop_only_relays _ Sample.blank) _ _ Hrun)).
Defined.

(** *** The data service of a session *)

Section Untouched.

Variable rejects : list RemoteCall -> RemoteCall -> bool.
Variable js : JsonDataService.t.
Variable d : SculptureData.
Hypothesis js_loaded : JsonDataService.data js = Some d.

Ltac loaded_lookup fst_lemma :=
  intros term ds ->; exists js; split; [|reflexivity];
  simpl; unfold returning;
  rewrite fst_lemma, (StoreFacts.ensureData_loaded _ js_loaded); reflexivity.

Lemma loaded_findSculptureByName :
  forall term ds, ds = js ->
    exists ds',
      findSculptureByName term ds
      = (ds', Returned (snd (JsonDataService.findSculptureByName term js)))
      /\ ds' = js.
Proof. loaded_lookup SessionFacts.findSculptureByName_fst. Qed.

Lemma loaded_getSculpturesByArtist :
  forall term ds, ds = js ->
    exists ds',
      getSculpturesByArtist term ds
      = (ds', Returned (snd (JsonDataService.getSculpturesByArtist term js)))
      /\ ds' = js.
Proof. loaded_lookup SessionFacts.getSculpturesByArtist_fst. Qed.

Lemma loaded_getSculpturesByMaterial :
  forall term ds, ds = js ->
    exists ds',
      getSculpturesByMaterial term ds
      = (ds', Returned (snd (JsonDataService.getSculpturesByMaterial term js)))
      /\ ds' = js.
Proof. loaded_lookup SessionFacts.getSculpturesByMaterial_fst. Qed.

Lemma loaded_getSculpturesByPeriod :
  forall term ds, ds = js ->
    exists ds',
      getSculpturesByPeriod term ds
      = (ds', Returned (snd (JsonDataService.getSculpturesByPeriod term js)))
      /\ ds' = js.
Proof. loaded_lookup SessionFacts.getSculpturesByPeriod_fst. Qed.

Lemma enrich_loaded (text : string) (cs : list RemoteCall) (fs : list Frame) :
  enrichWithSculptureData rejects text (mkSession (Some js) cs fs)
  = (mkSession (Some js)
               (cs ++ Spec.contextItems (Spec.selectedContext js text)) fs,
     Returned tt).
Proof.
  unfold enrichWithSculptureData. cbn [dataService]. unfold tryCatch, bind.
  destruct (SessionFacts.guarded_forMentions_hits
              findSculptureByName formatSculptureInfo _ _
              loaded_findSculptureByName
              (extractSculptureTerms text) (false, EmptyString) cs fs js
              (eq_refl js))
    as (ds1 & -> & E1).
  cbn [fst negb andb] in E1. rewrite E1. clear E1. cbv beta iota.
  match goal with
  | |- context [forMentions _ _ (extractArtistTerms text) ?v] =>
      destruct (SessionFacts.guarded_forMentions_hits
                  getSculpturesByArtist formatArtistSculptureInfo _ _
                  loaded_getSculpturesByArtist
                  (extractArtistTerms text) v cs fs js (eq_refl js))
        as (ds2 & -> & E2)
  end.
  rewrite E2. clear E2. cbv beta iota.
  match goal with
  | |- context [forMentions _ _ (extractMaterialTerms text) ?v] =>
      destruct (SessionFacts.guarded_forMentions_hits
                  getSculpturesByMaterial formatMaterialSculptureInfo _ _
                  loaded_getSculpturesByMaterial
                  (extractMaterialTerms text) v cs fs js (eq_refl js))
        as (ds3 & -> & E3)
  end.
  rewrite E3. clear E3. cbv beta iota.
  match goal with
  | |- context [forMentions _ _ (extractPeriodTerms text) ?v] =>
      destruct (SessionFacts.guarded_forMentions_hits
                  getSculpturesByPeriod formatPeriodSculptureInfo _ _
                  loaded_getSculpturesByPeriod
                  (extractPeriodTerms text) v cs fs js (eq_refl js))
        as (ds4 & -> & E4)
  end.
  rewrite E4. clear E4. cbv beta iota.
  pose proof (SessionFacts.final_vars js text) as Hvars.
  cbv zeta in Hvars. rewrite Hvars.
  destruct (Spec.selectedContext js text) as [ctx|] eqn:Hsel;
    cbn [fst snd andb Spec.contextItems].
  - rewrite (SessionFacts.selectedContext_truthy _ _ Hsel).
    unfold clientCall. cbn [dataService calls frames].
    destruct (rejects cs _); reflexivity.
  - unfold ret. rewrite app_nil_r. reflexivity.
Qed.

End Untouched.

Section DataService.

Variable rejects : list RemoteCall -> RemoteCall -> bool.

Lemma user_turn_keeps_service {DS} (text : string) (s : Session DS) :
  dataService
    (fst (let (s', o) :=
            let (s', o) := clientCall rejects (SendItem User text) s in
            match o with
            | Returned _ => clientCall rejects GenerateResponse s'
            | Thrown e => (s', Thrown e)
            end in
          match o with
          | Returned a => (s', Returned a)
          | Thrown e => throw e s'
          end))
  = dataService s.
Proof.
  unfold clientCall, throw.
  destruct (rejects (calls s) (SendItem User text)); simpl; [reflexivity|].
  destruct (rejects (calls s ++ [SendItem User text]) GenerateResponse);
    reflexivity.
Qed.

Lemma handleTextMessage_keeps_loaded (js : JsonDataService.t)
      (d : SculptureData) (parsed : option WSMessage)
      (s : Session JsonDataService.t) :
  dataService s = Some js ->
  JsonDataService.data js = Some d ->
  dataService (fst (handleTextMessage rejects parsed s)) = Some js.
Proof.
  intros Hds Hloaded.
  destruct parsed as [[id delta|id text|id text| |greeting|id]|];
    try exact Hds.
  unfold handleTextMessage, tryCatch, bind, hasDataService. simpl.
  rewrite Hds. cbn [andb].
  destruct (truthy text).
  - destruct s as [ds cs fs]. simpl in Hds. subst ds.
    rewrite (@enrich_loaded rejects js d Hloaded text cs fs).
    rewrite user_turn_keeps_service. reflexivity.
  - unfold ret. rewrite user_turn_keeps_service. exact Hds.
Qed.

(** X25. On a session that holds a loaded data service, enrichment and
    the handling of any text message leave that data service exactly as
    it was: the store is never loaded again, the file never read again,
    the snapshot never changed. *)
Theorem loaded_service_untouched (js : JsonDataService.t) (d : SculptureData)
        (parsed : option WSMessage) (text : string)
        (s : Session JsonDataService.t) :
  dataService s = Some js ->
  JsonDataService.data js = Some d ->
  dataService (fst (enrichWithSculptureData rejects text s)) = Some js
  /\ dataService (fst (handleTextMessage rejects parsed s)) = Some js.
Proof.
  intros Hds Hloaded. split.
  - destruct s as [ds cs fs]. simpl in Hds. subst ds.
    rewrite (@enrich_loaded rejects js d Hloaded text cs fs). reflexivity.
  - exact (handleTextMessage_keeps_loaded parsed s Hds Hloaded).
Qed.

Lemma no_service_stays_none (parsed : option WSMessage)
      (s : Session JsonDataService.t) :
  dataService s = None ->
  dataService (fst (handleTextMessage rejects parsed s)) = None.
Proof.
  intros Hds.
  destruct parsed as [[id delta|id text|id text| |greeting|id]|];
    try exact Hds.
  unfold handleTextMessage, tryCatch, bind, hasDataService. simpl.
  rewrite Hds. cbn [andb]. unfold ret.
  rewrite user_turn_keeps_service. exact Hds.
Qed.

Lemma handleTextMessage_same_snapshot (js : JsonDataService.t)
      (parsed : option WSMessage) (s : Session JsonDataService.t) :
  dataService s = Some js ->
  exists ds',
    dataService (fst (handleTextMessage rejects parsed s)) = Some ds'
    /\ Spec.SameSnapshot js ds'.
Proof.
  intros Hds.
  destruct parsed as [[id delta|id text|id text| |greeting|id]|];
    try (exists js; split; [exact Hds|reflexivity]).
  unfold handleTextMessage, tryCatch, bind, hasDataService. simpl.
  rewrite Hds. cbn [andb].
  destruct (truthy text).
  - destruct s as [ds cs fs]. simpl in Hds. subst ds.
    destruct (SessionFacts.enrich_json rejects text cs fs
                (eq_refl : Spec.SameSnapshot js js))
      as (ds' & Hsame & ->).
    rewrite user_turn_keeps_service. exists ds'. split; [reflexivity|exact Hsame].
  - unfold ret. rewrite user_turn_keeps_service.
    exists js. split; [exact Hds|reflexivity].
Qed.

Lemma same_snapshot_unset (js ds' : JsonDataService.t) :
  JsonDataService.snapshot js = None ->
  Spec.SameSnapshot js ds' ->
  JsonDataService.data ds' = None.
Proof.
  unfold Spec.SameSnapshot, JsonDataService.snapshot, JsonDataService.ensureData.
  intros Hjs Hsame. rewrite Hjs in Hsame.
  destruct (JsonDataService.data ds') as [d|] eqn:Hdata; [|reflexivity].
  rewrite Hdata in Hsame. discriminate.
Qed.

(** X26. [initializeDataService] returns normally, makes no remote call
    and sends no frame. When the file cannot be read or parsed it
    leaves no data service in the session; when the file holds a
    dataset it leaves a data service loaded with it, the file read
    once; in both cases, whatever text message is handled afterwards,
    the field stays what initialization made it. When the file holds
    [null], [loadData] reports success and the data service is kept
    although its store is unset; it is still there and still unset
    after any text message. *)
Theorem initialization_settles_service (file : LoadOutcome)
        (parsed : option WSMessage) (s : Session JsonDataService.t) :
  snd (initializeDataService file s) = Returned tt
  /\ calls (fst (initializeDataService file s)) = calls s
  /\ frames (fst (initializeDataService file s)) = frames s
  /\ dataService (fst (initializeDataService file s))
     = match file with
       | Parsed d => Some (JsonDataService.mk (Some d) (Parsed d) 1)
       | ParsedNull => Some (JsonDataService.mk None ParsedNull 1)
       | ReadError | ParseError => None
       end
  /\ match file with
     | ParsedNull =>
         exists ds',
           dataService (fst (handleTextMessage rejects parsed
                               (fst (initializeDataService file s))))
           = Some ds'
           /\ JsonDataService.data ds' = None
     | Parsed _ | ReadError | ParseError =>
         dataService (fst (handleTextMessage rejects parsed
                             (fst (initializeDataService file s))))
         = dataService (fst (initializeDataService file s))
     end.
Proof.
  assert (Hinit :
    initializeDataService file s
    = (mkSession match file with
                 | Parsed d => Some (JsonDataService.mk (Some d) (Parsed d) 1)
                 | ParsedNull => Some (JsonDataService.mk None ParsedNull 1)
                 | ReadError | ParseError => None
                 end (calls s) (frames s), Returned tt))
    by (destruct file; reflexivity).
  rewrite Hinit. simpl. repeat split.
  destruct file as [| |d|].
  - apply no_service_stays_none. reflexivity.
  - apply no_service_stays_none. reflexivity.
  - apply (handleTextMessage_keeps_loaded (d := d)); reflexivity.
  - destruct (@handleTextMessage_same_snapshot
                (JsonDataService.mk None ParsedNull 1) parsed
                (mkSession (Some (JsonDataService.mk None ParsedNull 1))
                           (calls s) (frames s)) eq_refl)
      as (ds' & Hds' & Hsame).
    exists ds'. split; [exact Hds'|].
    apply (same_snapshot_unset (js := JsonDataService.mk None ParsedNull 1));
      [reflexivity|exact Hsame].
Qed.

Example null_file_is_read_again :
  dataService
    (fst (handleTextMessage Sample.accepting
            (Some (UserMessage "1" "Tell me about David"))
            (fst (initializeDataService ParsedNull (mkSession None [] [])))))
  = Some (JsonDataService.mk None ParsedNull 2).
Proof. vm_compute. reflexivity. Qed.

(** X27. After an initialization that could not read or parse the
    file, a user message is relayed without any context: the remote
    session taking the user's item, the handler makes exactly the
    submission of the user's item and the generation request, and sends
    no frame. *)
Theorem failed_initialization_relays_plainly (file : LoadOutcome)
        (id text : string) (s : Session JsonDataService.t) :
  file = ReadError \/ file = ParseError ->
  (forall history, rejects history (SendItem User text) = false) ->
  calls (fst (handleTextMessage rejects (Some (UserMessage id text))
                                (fst (initializeDataService file s))))
  = calls s ++ [SendItem User text; GenerateResponse]
  /\ frames (fst (handleTextMessage rejects (Some (UserMessage id text))
                                    (fst (initializeDataService file s))))
     = frames s.
Proof.
  intros Hfile Huser.
  assert (Hinit : initializeDataService file s
                  = (mkSession None (calls s) (frames s), Returned tt))
    by (destruct Hfile as [-> | ->]; reflexivity).
  rewrite Hinit.
  unfold handleTextMessage, tryCatch, bind, hasDataService, ret, clientCall.
  simpl. rewrite Huser. simpl.
  destruct (rejects (calls s ++ [SendItem User text]) GenerateResponse);
    simpl; rewrite <- app_assoc; split; reflexivity.
Qed.

End DataService.

Lemma loaded_service_untouched_witness :
  dataService (Sample.session Sample.loaded) = Some Sample.loaded
  /\ JsonDataService.data Sample.loaded = Some Sample.museum
  /\ dataService (fst (enrichWithSculptureData
                         Sample.accepting "Tell me about David"
                         (Sample.session Sample.loaded)))
     = Some Sample.loaded
  /\ dataService (fst (handleTextMessage
                         Sample.accepting
                         (Some (UserMessage "1" "a bronze by Rodin"))
                         (Sample.session Sample.loaded)))
     = Some Sample.loaded.
Proof.
  split; [reflexivity|]. split; [reflexivity|].
  apply (@loaded_service_untouched
           Sample.accepting Sample.loaded Sample.museum
           (Some (UserMessage "1" "a bronze by Rodin")) "Tell me about David"
           (Sample.session Sample.loaded));
    reflexivity.
Defined.

Lemma failed_initialization_relays_plainly_witness :
  (ParseError = ReadError \/ ParseError = ParseError)
  /\ (forall history,
         Sample.accepting history (SendItem User "Tell me about David") = false)
  /\ calls (fst (handleTextMessage
                   Sample.accepting
                   (Some (UserMessage "1" "Tell me about David"))
                   (fst (initializeDataService ParseError
                           (mkSession None [] [])))))
     = [SendItem User "Tell me about David"; GenerateResponse].
Proof.
  split; [right; reflexivity|]. split; [intros history; reflexivity|].
  apply (proj1 (@failed_initialization_relays_plainly
                  Sample.accepting ParseError "1" "Tell me about David"
                  (mkSession None [] [])
                  (or_intror eq_refl) (fun history => eq_refl))).
Defined.

End SessionExtras.
